(** * Canadian equity dashboard: ticker normalisation, drawdown and metrics

    A shallow embedding of [src/dashboard.py]:
    [normalize_canadian_ticker], [max_drawdown], [compute_metrics] and the
    data path of [build_dashboard_html].

    Numbers.  The program computes on NumPy [float64] values.  They are
    modelled by [fval]: an exact rational, plus or minus infinity, or NaN,
    with the IEEE rules for the special values (division by zero, infinity
    minus infinity, zero times infinity).  Rounding, overflow of finite
    values and the sign of zero are not modelled.  [np.sqrt] on finite
    values and [**] are parameters of the development ([sqrt_fin],
    [np_power]).  The main statements are worded for what rounding and
    overflow leave true (a bound is closed where rounding can reach it, a
    quotient is guarded where it can overflow); the invariance under
    scaling is the exception: it is stated for exact arithmetic and shown
    to fail in binary64, for which the module [Binary64] holds the
    arithmetic of the Total Return once more, over the primitive floats.

    Warnings.  The list of warnings holds what the program itself issues
    with [warnings.warn]; a warning NumPy or pandas issues on its own (for
    an overflow, say) is not modelled.

    Tables.  A pandas [DataFrame], its column labels taken to be unique, is
    a finite map from column names to columns of equal length; a cell is a
    number, a timestamp or a value that neither [pd.to_numeric] nor
    [pd.to_datetime] accepts.

    Text.  A ticker is a [string] of ASCII characters. *)

From Stdlib Require Import QArith Qcanon Qround Qabs ZArith String Ascii List Lia.
From Stdlib Require PrimFloat.
From stdpp Require Import base numbers option list strings pretty gmap.

Local Open Scope string_scope.
Local Open Scope list_scope.
Local Open Scope nat_scope.

(** ** float64 values *)

Module Float.

Local Open Scope Qc_scope.

Inductive fval : Type :=
| Fin (q : Qc)
| PInf
| NInf
| NaN.

#[global] Instance fval_eq_dec : EqDecision fval.
Proof. solve_decision. Defined.

Definition of_Z (z : Z) : fval := Fin (Qc_of_Z z).
Definition of_nat (n : nat) : fval := of_Z (Z.of_nat n).

Definition zero : fval := Fin 0.
Definition one : fval := Fin 1.

(** [np.isnan], [np.isfinite], [pd.notna] on a float. *)
Definition isnan (x : fval) : bool :=
  match x with NaN => true | _ => false end.

Definition isfinite (x : fval) : bool :=
  match x with Fin _ => true | _ => false end.

Definition notna (x : fval) : bool := negb (isnan x).

(** The infinity carrying the sign of [q]; NaN for zero (as in [0/0] and
    [0 * inf]). *)
Definition signed_inf (q : Qc) : fval :=
  if decide (0 < q) then PInf
  else if decide (q < 0) then NInf
  else NaN.

Definition fneg (x : fval) : fval :=
  match x with
  | Fin q => Fin (- q)
  | PInf => NInf
  | NInf => PInf
  | NaN => NaN
  end.

Definition fadd (x y : fval) : fval :=
  match x, y with
  | NaN, _ | _, NaN => NaN
  | Fin a, Fin b => Fin (a + b)
  | PInf, NInf | NInf, PInf => NaN
  | PInf, _ | _, PInf => PInf
  | NInf, _ | _, NInf => NInf
  end.

Definition fsub (x y : fval) : fval := fadd x (fneg y).

Definition fmul (x y : fval) : fval :=
  match x, y with
  | NaN, _ | _, NaN => NaN
  | Fin a, Fin b => Fin (a * b)
  | Fin a, PInf | PInf, Fin a => signed_inf a
  | Fin a, NInf | NInf, Fin a => signed_inf (- a)
  | PInf, PInf | NInf, NInf => PInf
  | PInf, NInf | NInf, PInf => NInf
  end.

(** Division as NumPy does it: a finite value over zero is an infinity of
    its sign, [0/0] and [inf/inf] are NaN, nothing raises. *)
Definition fdiv (x y : fval) : fval :=
  match x, y with
  | NaN, _ | _, NaN => NaN
  | Fin a, Fin b => if decide (b = 0) then signed_inf a else Fin (a / b)
  | Fin _, PInf | Fin _, NInf => Fin 0
  | PInf, Fin b => if decide (b < 0) then NInf else PInf
  | NInf, Fin b => if decide (b < 0) then PInf else NInf
  | PInf, PInf | PInf, NInf | NInf, PInf | NInf, NInf => NaN
  end.

(** [x < y] and [x <= y]; any comparison with NaN is false. *)
Definition fltb (x y : fval) : bool :=
  match x, y with
  | NaN, _ | _, NaN => false
  | Fin a, Fin b => bool_decide (a < b)
  | Fin _, PInf => true
  | Fin _, NInf => false
  | PInf, _ => false
  | NInf, NInf => false
  | NInf, _ => true
  end.

Definition fleb (x y : fval) : bool :=
  match x, y with
  | NaN, _ | _, NaN => false
  | Fin a, Fin b => bool_decide (a ≤ b)
  | Fin _, PInf => true
  | Fin _, NInf => false
  | PInf, PInf => true
  | PInf, _ => false
  | NInf, _ => true
  end.

(** [np.maximum] and [np.minimum]: NaN if either argument is. *)
Definition fmax (x y : fval) : fval :=
  match x, y with
  | NaN, _ | _, NaN => NaN
  | _, _ => if fltb x y then y else x
  end.

Definition fmin (x y : fval) : fval :=
  match x, y with
  | NaN, _ | _, NaN => NaN
  | _, _ => if fltb y x then y else x
  end.

(** The guard the program puts on every metric:
    [x if np.isfinite(x) else float("nan")]. *)
Definition finite_or_nan (x : fval) : fval :=
  if isfinite x then x else NaN.

End Float.
Export Float.

(** ** Ticker symbols *)

Module Ticker.

(** The ASCII characters [str.strip] removes: tab, line feed, vertical tab,
    form feed, carriage return, the four separators 28..31 and the space. *)
Definition is_space (c : ascii) : bool :=
  let n := nat_of_ascii c in
  ((9 <=? n) && (n <=? 13)) || ((28 <=? n) && (n <=? 32)).

Definition is_lower (c : ascii) : bool :=
  let n := nat_of_ascii c in (97 <=? n) && (n <=? 122).

Definition upper_char (c : ascii) : ascii :=
  if is_lower c then ascii_of_nat (nat_of_ascii c - 32) else c.

(** [str.upper] *)
Fixpoint upper (s : string) : string :=
  match s with
  | EmptyString => EmptyString
  | String c s' => String (upper_char c) (upper s')
  end.

Fixpoint lstrip (s : string) : string :=
  match s with
  | EmptyString => EmptyString
  | String c s' => if is_space c then lstrip s' else s
  end.

Fixpoint rstrip (s : string) : string :=
  match s with
  | EmptyString => EmptyString
  | String c s' =>
      match rstrip s' with
      | EmptyString => if is_space c then EmptyString else String c EmptyString
      | r => String c r
      end
  end.

(** [str.strip] with no argument *)
Definition strip (s : string) : string := rstrip (lstrip s).

(** [str.startswith] *)
Definition startswith (s p : string) : bool := String.prefix p s.

(** [needle in s] *)
Fixpoint contains (needle s : string) : bool :=
  String.prefix needle s
  || match s with
     | EmptyString => false
     | String _ s' => contains needle s'
     end.

Definition normalize_canadian_ticker (ticker : string) : string :=
  let t := upper (strip ticker) in
  if startswith t "^" then t
  else if negb (contains "." t) then t +:+ ".TO"
  else t.

(** The characters of a symbol, and the symbols with no white space in
    front, for the statements below. *)
Definition chars (s : string) : list ascii := list_ascii_of_string s.

Definition no_lead (s : string) : Prop :=
  match s with
  | EmptyString => True
  | String c _ => is_space c = false
  end.

(** The rule in the words of the specification, "trim and uppercase",
    written without [strip] and [upper].  White space is one of ten ASCII
    characters; [core] is [s] trimmed when [s] is [core] between two runs
    of white space and [core] has white space at neither end; the capital
    of a letter of a..z is the letter at the same place in A..Z, and any
    other character is its own capital. *)
Definition whitespace : list ascii :=
  ascii_of_nat <$> [9; 10; 11; 12; 13; 28; 29; 30; 31; 32].

Definition blank (s : string) : Prop := ∀ c, c ∈ chars s → c ∈ whitespace.

Definition trimmed (s : string) : Prop :=
  (∀ c r, s = String c r → c ∉ whitespace)
  ∧ (∀ r c, s = r +:+ String c "" → c ∉ whitespace).

Definition trim_of (s core : string) : Prop :=
  ∃ a b, s = a +:+ core +:+ b ∧ blank a ∧ blank b ∧ trimmed core.

Definition small_letters : list ascii := chars "abcdefghijklmnopqrstuvwxyz".
Definition capital_letters : list ascii := chars "ABCDEFGHIJKLMNOPQRSTUVWXYZ".

Definition capital_of (c : ascii) : ascii :=
  match list_find (λ x, x = c) small_letters with
  | Some (i, _) => default c (capital_letters !! i)
  | None => c
  end.

Definition capitals (s : string) : string :=
  string_of_list_ascii (capital_of <$> chars s).

End Ticker.
Export Ticker.

(** ** The parts of NumPy and pandas the program calls *)

Module Pandas.

(** NumPy's square root on a non-negative finite value, and its power
    operator, are taken as given. *)
Class NumPy := {
  sqrt_fin : Qc → Qc;
  np_power : fval → fval → fval
}.

Definition np_sqrt `{NumPy} (x : fval) : fval :=
  match x with
  | Fin q => if decide (q < 0)%Qc then NaN else Fin (sqrt_fin q)
  | PInf => PInf
  | NInf | NaN => NaN
  end.

(** [warnings.warn(msg, RuntimeWarning)], as called by the program itself,
    appends to the list of the program's warnings.  What NumPy or pandas
    may warn of on their own is not in that list. *)
Inductive warning : Type :=
| RuntimeWarning (msg : string).

(** The exceptions of the program and of the calls it makes; [OSError]
    stands for its subclasses ([FileNotFoundError], [PermissionError], ...)
    and carries the path. *)
Inductive exn : Type :=
| ValueError (msg : string)
| KeyError (missing : list string)
| IndexError
| OSError (path : string).

Inductive result (A : Type) : Type :=
| Return (a : A)
| Raise (e : exn).
Arguments Return {A} a.
Arguments Raise {A} e.

(** A cell of a column: a float, a timestamp without time zone
    (nanoseconds since the epoch), or anything the parsers coerce to a
    missing value.  What pandas reads as a date in some columns only (a
    number, a date in text, a time-zone-aware timestamp among naive ones)
    is not modelled: a column of dates holds naive timestamps and values
    that do not parse. *)
Inductive cell : Type :=
| Num (x : fval)
| Stamp (t : Z)
| Junk.

(** [pd.to_numeric(_, errors="coerce")] and
    [pd.to_datetime(_, errors="coerce")], cell by cell; [None] is [NaT]. *)
Definition to_numeric (c : cell) : fval :=
  match c with Num x => x | _ => NaN end.

Definition to_datetime (c : cell) : option Z :=
  match c with Stamp t => Some t | _ => None end.

Abbreviation DataFrame := (gmap string (list cell)).

(** A column by name; the callers check that it exists first. *)
Definition column (df : DataFrame) (name : string) : list cell :=
  default [] (df !! name).

(** [Series.dropna] *)
Definition dropna (l : list fval) : list fval :=
  filter (λ x, notna x) l.

(** [Series.pct_change] on a series without missing entries:
    [data / data.shift(1) - 1]. *)
Definition pct_change (l : list fval) : list fval :=
  zip_with (λ x prev, fsub (fdiv x prev) one) l (NaN :: l).

(** [np.ufunc.accumulate] *)
Fixpoint accumulate_from (f : fval → fval → fval) (acc : fval)
    (l : list fval) : list fval :=
  match l with
  | [] => []
  | x :: r => let a := f acc x in a :: accumulate_from f a r
  end.

Definition np_accumulate (f : fval → fval → fval) (l : list fval) : list fval :=
  match l with
  | [] => []
  | x :: r => x :: accumulate_from f x r
  end.

(** pandas' [na_accum_func] with [skipna=True]: missing entries are replaced
    by [fill] for the accumulation and put back afterwards. *)
Definition na_accum_func (f : fval → fval → fval) (fill : fval)
    (l : list fval) : list fval :=
  let vals := (λ x, if isnan x then fill else x) <$> l in
  zip_with (λ x r, if isnan x then NaN else r) l (np_accumulate f vals).

Definition cumprod : list fval → list fval := na_accum_func fmul one.
Definition cummax : list fval → list fval := na_accum_func fmax NInf.

(** [Series.min]: the least entry that is not missing, NaN if there is
    none. *)
Definition series_min (l : list fval) : fval :=
  match dropna l with
  | [] => NaN
  | x :: r => foldl fmin x r
  end.

Definition fsum (l : list fval) : fval := foldl fadd zero l.

(** [nanops.nanvar] with [ddof=1]. *)
Definition nanvar (l : list fval) : fval :=
  let v := dropna l in
  let count := length v in
  if count <=? 1 then NaN
  else
    let avg := fdiv (fsum v) (of_nat count) in
    let sqr := (λ x, let d := fsub avg x in fmul d d) <$> v in
    fdiv (fsum sqr) (of_nat (count - 1)).

(** [Series.std] *)
Definition series_std `{NumPy} (l : list fval) : fval := np_sqrt (nanvar l).

Definition mean (obs : list fval) : fval :=
  fdiv (fsum obs) (of_nat (length obs)).

(** [Series.rolling(w)] followed by an aggregation: infinite entries count
    as missing, the window at [i] holds the entries [i-w+1 .. i], and the
    result is missing unless the window has [w] observations. *)
Definition prep_value (x : fval) : fval := if isfinite x then x else NaN.

Definition rolling (w : nat) (agg : list fval → fval) (l : list fval)
    : list fval :=
  let vals := prep_value <$> l in
  (λ i, let obs := dropna (drop (S i - w) (take (S i) vals)) in
        if length obs <? w then NaN else agg obs)
  <$> seq 0 (length l).

Definition rolling_mean (w : nat) : list fval → list fval := rolling w mean.

Definition rolling_std `{NumPy} (w : nat) : list fval → list fval :=
  rolling w (λ obs, np_sqrt (nanvar obs)).

End Pandas.
Export Pandas.

(** ** Timestamps and calendar dates *)

Module Dates.

Local Open Scope Z_scope.

Definition ns_per_day : Z := 86400000000000.

(** [Timestamp.date()] as a day count since 1970-01-01, and
    [(t1 - t0).days]. *)
Definition date_of (t : Z) : Z := t / ns_per_day.
Definition timedelta_days (t1 t0 : Z) : Z := (t1 - t0) / ns_per_day.

(** Year, month and day of a day count (proleptic Gregorian calendar). *)
Definition civil_of_days (days : Z) : Z * Z * Z :=
  let z := days + 719468 in
  let era := z / 146097 in
  let doe := z - era * 146097 in
  let yoe := (doe - doe / 1460 + doe / 36524 - doe / 146096) / 365 in
  let doy := doe - (365 * yoe + yoe / 4 - yoe / 100) in
  let mp := (5 * doy + 2) / 153 in
  let d := doy - (153 * mp + 2) / 5 + 1 in
  let m := if mp <? 10 then mp + 3 else mp - 9 in
  let y := yoe + era * 400 + (if m <=? 2 then 1 else 0) in
  (y, m, d).

Fixpoint zero_pad (width : nat) (s : string) : string :=
  match width with
  | O => s
  | S w => if (String.length s <? width)%nat then zero_pad w ("0" +:+ s) else s
  end.

Definition digits (width : nat) (z : Z) : string :=
  zero_pad width (pretty (Z.to_N z)).

(** [date.isoformat()]: YYYY-MM-DD. *)
Definition isoformat (day : Z) : string :=
  let '(y, m, d) := civil_of_days day in
  digits 4 y +:+ "-" +:+ digits 2 m +:+ "-" +:+ digits 2 d.

End Dates.
Export Dates.

(** ** The program *)

Definition W_mdd_empty : warning :=
  RuntimeWarning "Max drawdown could not be computed (empty return series).".
Definition W_mdd_nonfinite : warning :=
  RuntimeWarning "Max drawdown computed to a non-finite value.".
Definition W_not_enough : warning :=
  RuntimeWarning
    "Not enough data points to compute return-based metrics (need at least 2).".
Definition W_total_nonfinite : warning :=
  RuntimeWarning "Total Return computed to a non-finite value.".
Definition W_cagr_span : warning :=
  RuntimeWarning "CAGR could not be computed (non-positive time span).".
Definition W_cagr_nonfinite : warning :=
  RuntimeWarning "CAGR computed to a non-finite value.".
Definition W_cagr_skipped : warning :=
  RuntimeWarning "CAGR skipped because Total Return is not finite.".
Definition W_vol_nonfinite : warning :=
  RuntimeWarning "Annualized Volatility computed to a non-finite value.".

(** The drawdown series of a series of returns without missing entries:
    [cumulative / cumulative.cummax() - 1]. *)
Definition drawdowns (s : list fval) : list fval :=
  let cumulative := cumprod (fadd one <$> s) in
  let peak := cummax cumulative in
  zip_with (λ c p, fsub (fdiv c p) one) cumulative peak.

Definition max_drawdown (series : list cell) : fval * list warning :=
  let s := dropna (to_numeric <$> series) in
  if bool_decide (s = []) then (NaN, [W_mdd_empty])
  else
    let out := series_min (drawdowns s) in
    if negb (isfinite out) then (NaN, [W_mdd_nonfinite])
    else (out, []).

(** The drawdown as the specification words it, entry by entry: the
    cumulative wealth index at [i] is the product of [1 + r] over the
    returns up to [i]; the running maximum is the greatest wealth up to [i];
    the drawdown is their quotient minus 1. *)
Definition wealth_at (s : list fval) (i : nat) : fval :=
  foldl fmul one (fadd one <$> take (S i) s).

Definition series_max (l : list fval) : fval :=
  match dropna l with
  | [] => NaN
  | x :: r => foldl fmax x r
  end.

Definition peak_at (s : list fval) (i : nat) : fval :=
  series_max (wealth_at s <$> seq 0 (S i)).

Definition drawdown_at (s : list fval) (i : nat) : fval :=
  fsub (fdiv (wealth_at s i) (peak_at s i)) one.

(** Again in the words of the specification, written without
    [pd.to_numeric], [dropna] and [min]: the entries [max_drawdown] keeps
    are the numbers of the series, NaN left out; and [m] is the least
    defined entry of [l] when it is one of them and below each of them. *)
Definition valid_entries (series : list cell) : list fval :=
  series ≫= λ c, match c with
                 | Num x => if isnan x then [] else [x]
                 | _ => []
                 end.

Definition least_defined (l : list fval) (m : fval) : Prop :=
  m ∈ l ∧ isnan m = false
  ∧ ∀ x, x ∈ l → isnan x = false → fleb m x = true.

(** Two classes of values closed under the product and the maximum, for the
    proof that a drawdown is never positive. *)
Definition zero_or_nan (x : fval) : Prop := x = zero ∨ x = NaN.
Definition not_finite (x : fval) : Prop := isfinite x = false.

(** A row of the cleaned table [d] of [compute_metrics]. *)
Record Row : Type := {
  Date : Z;
  Close : fval;
  Return_ : fval
}.

(** The dictionary [compute_metrics] returns. *)
Record Metrics : Type := {
  Start : string;
  End_ : string;
  Total_Return : fval;
  CAGR : fval;
  Annualized_Volatility : fval;
  Max_Drawdown : fval
}.

#[global] Instance warning_eq_dec : EqDecision warning.
Proof. solve_decision. Defined.
#[global] Instance exn_eq_dec : EqDecision exn.
Proof. solve_decision. Defined.
#[global] Instance result_eq_dec `{EqDecision A} : EqDecision (result A).
Proof. solve_decision. Defined.
#[global] Instance cell_eq_dec : EqDecision cell.
Proof. solve_decision. Defined.
#[global] Instance Row_eq_dec : EqDecision Row.
Proof. solve_decision. Defined.
#[global] Instance Metrics_eq_dec : EqDecision Metrics.
Proof. solve_decision. Defined.

(** [sorted(required - set(df.columns))], [required] being
    [{"Date", "Close", "Volume"}]. *)
Definition required : list string := ["Close"; "Date"; "Volume"].

Definition missing_columns (df : DataFrame) : list string :=
  filter (λ c, df !! c = None) required.

(** [repr] of a list of column names, as the error message shows it. *)
Fixpoint repr_items (l : list string) : string :=
  match l with
  | [] => ""
  | [c] => "'" +:+ c +:+ "'"
  | c :: r => "'" +:+ c +:+ "', " +:+ repr_items r
  end.

Definition repr_list (l : list string) : string := "[" +:+ repr_items l +:+ "]".

(** Lines 63-66: the rows whose date and close both parse. *)
Definition valid_rows (df : DataFrame) : list (Z * fval) :=
  omap (λ '(d, c),
          match d with
          | Some t => if notna c then Some (t, c) else None
          | None => None
          end)
       (zip (to_datetime <$> column df "Date") (to_numeric <$> column df "Close")).

(** Lines 68-69: the return of each row against the previous one, and the
    rows whose return is missing dropped. *)
Definition with_returns (rows : list (Z * fval)) : list Row :=
  zip_with (λ '(t, c) r, {| Date := t; Close := c; Return_ := r |})
           rows (pct_change rows.*2).

Definition clean (df : DataFrame) : list Row :=
  filter (λ r, notna (Return_ r)) (with_returns (valid_rows df)).

(** Lines 94-101.  The only exception the block could catch is the
    [IndexError] of [iloc] on an empty table. *)
Definition total_return_of (d : list Row) : fval * list warning :=
  match head d, last d with
  | Some first, Some final =>
      let total_return := fsub (fdiv (Close final) (Close first)) one in
      if negb (isfinite total_return) then (NaN, [W_total_nonfinite])
      else (total_return, [])
  | _, _ =>
      (NaN, [RuntimeWarning
               "Total Return could not be computed: single positional indexer is out-of-bounds"])
  end.

Definition days_per_year : fval := Fin (Q2Qc (1461 # 4)).

(** Lines 104-120. *)
Definition cagr_of `{NumPy} (d : list Row) (total_return : fval)
    : fval * list warning :=
  match head d, last d with
  | Some first, Some final =>
      let days := timedelta_days (Date final) (Date first) in
      let years := fdiv (of_Z days) days_per_year in
      if fleb years zero then (NaN, [W_cagr_span])
      else if isfinite total_return then
        let cagr := fsub (np_power (fadd one total_return) (fdiv one years)) one in
        if negb (isfinite cagr) then (NaN, [W_cagr_nonfinite])
        else (cagr, [])
      else (NaN, [W_cagr_skipped])
  | _, _ =>
      (NaN, [RuntimeWarning
               "CAGR could not be computed: single positional indexer is out-of-bounds"])
  end.

(** Lines 123-130. *)
Definition volatility_of `{NumPy} (d : list Row) : fval * list warning :=
  let vol := fmul (series_std (Return_ <$> d)) (np_sqrt (of_Z 252)) in
  if negb (isfinite vol) then (NaN, [W_vol_nonfinite])
  else (vol, []).

Definition compute_metrics `{NumPy} (df : DataFrame)
    : result (Metrics * list warning) :=
  let missing := missing_columns df in
  if negb (bool_decide (missing = [])) then
    Raise (ValueError ("compute_metrics missing required columns: "
                       +:+ repr_list missing))
  else
    let d := clean df in
    if length d <? 2 then
      let start :=
        match head d with Some r => isoformat (date_of (Date r)) | None => "N/A" end in
      let end_ :=
        match last d with Some r => isoformat (date_of (Date r)) | None => "N/A" end in
      Return ({| Start := start; End_ := end_;
                 Total_Return := NaN; CAGR := NaN;
                 Annualized_Volatility := NaN; Max_Drawdown := NaN |},
              [W_not_enough])
    else
      let '(total_return, w1) := total_return_of d in
      let '(cagr, w2) := cagr_of d total_return in
      let '(vol, w3) := volatility_of d in
      let '(mdd, w4) := max_drawdown (Num <$> (Return_ <$> d)) in
      match head d, last d with
      | Some first, Some final =>
          Return ({| Start := isoformat (date_of (Date first));
                     End_ := isoformat (date_of (Date final));
                     Total_Return := finite_or_nan total_return;
                     CAGR := finite_or_nan cagr;
                     Annualized_Volatility := finite_or_nan vol;
                     Max_Drawdown := finite_or_nan mdd |},
                  w1 ++ w2 ++ w3 ++ w4)
      | _, _ => Raise IndexError
      end.

(** Every close price of a table multiplied by [k]; cells that are not
    numbers are left as they are. *)
Definition scale_cell (k : Qc) (c : cell) : cell :=
  match c with
  | Num x => Num (fmul (Fin k) x)
  | _ => c
  end.

Definition scale_close (k : Qc) (df : DataFrame) : DataFrame :=
  alter (fmap (scale_cell k)) "Close" df.



(** ** The dashboard *)

(** What the market-data provider returns: a table indexed by date. *)
Record Frame : Type := {
  index_name : string;
  index : list cell;
  columns : DataFrame
}.

(** [DataFrame.empty]: no row or no column. *)
Definition frame_empty (hist : Frame) : bool :=
  bool_decide (index hist = []) || bool_decide (columns hist = ∅).

(** [DataFrame.reset_index]: the index becomes a column. *)
Definition reset_index (hist : Frame) : result DataFrame :=
  match columns hist !! index_name hist with
  | Some _ =>
      Raise (ValueError ("cannot insert " +:+ index_name hist +:+ ", already exists"))
  | None => Return (<[index_name hist := index hist]> (columns hist))
  end.

(** [df[names]]: the named columns, or a [KeyError]. *)
Definition select (names : list string) (df : DataFrame) : result DataFrame :=
  match filter (λ c, df !! c = None) names with
  | [] => Return (filter (λ kv, kv.1 ∈ names) df)
  | missing => Raise (KeyError missing)
  end.

(** A row of the cleaned price table of [build_dashboard_html]. *)
Record Bar : Type := {
  bar_date : Z;
  bar_close : fval;
  bar_volume : fval
}.

(** Lines 154-158. *)
Definition parse_bars (df : DataFrame) : list Bar :=
  omap (λ '(d, c, v),
          match d with
          | Some t =>
              if notna c && notna v
              then Some {| bar_date := t; bar_close := c; bar_volume := v |}
              else None
          | None => None
          end)
       (zip (zip (to_datetime <$> column df "Date")
                 (to_numeric <$> column df "Close"))
            (to_numeric <$> column df "Volume")).

(** Lines 163-166: the derived columns. *)
Record Indicators : Type := {
  MA50 : list fval;
  MA200 : list fval;
  Returns : list fval;
  Vol30 : list fval
}.

Definition indicators `{NumPy} (closes : list fval) : Indicators :=
  let returns := pct_change closes in
  {| MA50 := rolling_mean 50 closes;
     MA200 := rolling_mean 200 closes;
     Returns := returns;
     Vol30 := (λ s, fmul s (np_sqrt (of_Z 252))) <$> rolling_std 30 returns |}.

(** Line 168: the table handed to [compute_metrics]. *)
Definition bars_frame (bars : list Bar) : DataFrame :=
  <["Date" := Stamp <$> (bar_date <$> bars)]>
    (<["Close" := Num <$> (bar_close <$> bars)]>
       (<["Volume" := Num <$> (bar_volume <$> bars)]> ∅)).

Record Trace : Type := {
  trace_name : string;
  trace_row : nat;
  trace_x : list Z;
  trace_y : list fval
}.

Record Figure : Type := {
  fig_title : string;
  fig_traces : list Trace;
  fig_summary : string
}.

(** What a call leaves behind: its value or exception, the files on disk
    and the warnings the program issued. *)
Record Outcome : Type := {
  outcome : result string;
  files : gmap string string;
  warned : list warning
}.

Section Dashboard.

Context `{NumPy}.

(** [yf.Ticker(t).history(period=period)]; [None] is Python's [None]. *)
Variable history : string → string → option Frame.
(** [f"{x*100:.2f}"] on a finite value, and plotly's HTML writer. *)
Variable format_2f : fval → string.
Variable to_html : Figure → string.
(** Whether the file at a path can be opened for writing: [write_html]
    (line 224) renders the page, then opens the file, and raises an
    [OSError] there when the directory is missing or not writable. *)
Variable writable : string → bool.

Definition pct (x : fval) : string :=
  if negb (isfinite x) then "N/A"
  else format_2f (fmul x (of_Z 100)) +:+ "%".

Definition summary_of (t : string) (metrics : Metrics) : string :=
  "Ticker: " +:+ t
  +:+ "<br>" +:+ "Range: " +:+ Start metrics +:+ " → " +:+ End_ metrics
  +:+ "<br>" +:+ "Total Return: " +:+ pct (Total_Return metrics)
  +:+ "<br>" +:+ "CAGR: " +:+ pct (CAGR metrics)
  +:+ "<br>" +:+ "Ann. Volatility: " +:+ pct (Annualized_Volatility metrics)
  +:+ "<br>" +:+ "Max Drawdown: " +:+ pct (Max_Drawdown metrics).

Definition figure_of (t period : string) (bars : list Bar)
    (ind : Indicators) (metrics : Metrics) : Figure :=
  let x := bar_date <$> bars in
  {| fig_title := "Canadian Equity Dashboard — " +:+ t +:+ " (" +:+ period +:+ ")";
     fig_traces :=
       [ {| trace_name := "Close"; trace_row := 1; trace_x := x;
            trace_y := bar_close <$> bars |};
         {| trace_name := "MA50"; trace_row := 1; trace_x := x;
            trace_y := MA50 ind |};
         {| trace_name := "MA200"; trace_row := 1; trace_x := x;
            trace_y := MA200 ind |};
         {| trace_name := "Volume"; trace_row := 2; trace_x := x;
            trace_y := bar_volume <$> bars |};
         {| trace_name := "Daily Return"; trace_row := 3; trace_x := x;
            trace_y := Returns ind |};
         {| trace_name := "Vol30"; trace_row := 4; trace_x := x;
            trace_y := Vol30 ind |} ];
     fig_summary := summary_of t metrics |}.

Definition no_data (t : string) : exn :=
  ValueError ("No price data returned for ticker: " +:+ t).

Definition not_parsed (t : string) : exn :=
  ValueError ("Price data returned for " +:+ t
              +:+ ", but could not be parsed into numeric Date/Close/Volume.").

Definition build_dashboard_html (fs : gmap string string)
    (ticker period out_html : string) : Outcome :=
  let t := normalize_canadian_ticker ticker in
  let fail e := {| outcome := Raise e; files := fs; warned := [] |} in
  match history t period with
  | None => fail (no_data t)
  | Some hist =>
      if frame_empty hist then fail (no_data t)
      else
        match reset_index hist with
        | Raise e => fail e
        | Return df0 =>
            match select ["Date"; "Close"; "Volume"] df0 with
            | Raise e => fail e
            | Return df =>
                let bars := parse_bars df in
                if bool_decide (bars = []) then fail (not_parsed t)
                else
                  let ind := indicators (bar_close <$> bars) in
                  match compute_metrics (bars_frame bars) with
                  | Raise e => fail e
                  | Return (metrics, ws) =>
                      let fig := figure_of t period bars ind metrics in
                      let html := to_html fig in
                      if writable out_html then
                        {| outcome := Return out_html;
                           files := <[out_html := html]> fs;
                           warned := ws |}
                      else
                        {| outcome := Raise (OSError out_html);
                           files := fs;
                           warned := ws |}
                  end
            end
        end
  end.

End Dashboard.

(** For the statements about the derived series: a price is finite and not
    zero; the entries of a series are missing exactly before position [n];
    and, more precisely, missing before [n] and finite from there on. *)
Definition all_finite (l : list fval) : Prop :=
  Forall (λ x, isfinite x = true) l.

Definition nonneg (x : fval) : Prop := ∃ q : Qc, x = Fin q ∧ (0 ≤ q)%Qc.

Definition is_price (c : fval) : Prop := isfinite c = true ∧ c ≠ zero.

#[global] Instance is_price_dec c : Decision (is_price c).
Proof. unfold is_price. apply _. Defined.

Definition undefined_before (n : nat) (l : list fval) : Prop :=
  ∀ i x, l !! i = Some x → (isnan x = true ↔ i < n).

Definition finite_from (n : nat) (l : list fval) : Prop :=
  ∀ i x, l !! i = Some x →
    (i < n → x = NaN) ∧ (n ≤ i → isfinite x = true).

(** The first [n] entries of a series are missing, whatever comes next. *)
Definition leading_undefined (n : nat) (l : list fval) : Prop :=
  ∀ i x, l !! i = Some x → i < n → isnan x = true.

(** ** The command line

    [scripts/run_dashboard.py], lines 25-28: the file name [main] gives the
    dashboard when no output path is passed. *)

Module Cli.

(** [str.replace(old, new)] for one-character [old] and [new]. *)
Fixpoint replace_char (old new : ascii) (s : string) : string :=
  match s with
  | EmptyString => EmptyString
  | String c s' =>
      String (if ascii_dec c old then new else c) (replace_char old new s')
  end.

Definition safe_ticker (ticker : string) : string :=
  upper (replace_char "." "_" ticker).

Definition safe_period (period : string) : string :=
  replace_char "/" "_" period.

(** [f"{safe_ticker}_{safe_period}.html"] *)
Definition default_out_name (ticker period : string) : string :=
  safe_ticker ticker +:+ "_" +:+ safe_period period +:+ ".html".

End Cli.
Export Cli.

(** A row put into a table at position [i], for the statements about rows
    that do not parse. *)
Definition insert_at {A} (i : nat) (x : A) (l : list A) : list A :=
  take i l ++ x :: drop i l.

Definition insert_row (i : nat) (d c v : cell) (df : DataFrame) : DataFrame :=
  alter (insert_at i v) "Volume"
    (alter (insert_at i c) "Close" (alter (insert_at i d) "Date" df)).

(** The warnings the [except] branches of lines 99-101 and 118-120 would
    issue on an [iloc] out of bounds. *)
Definition W_total_index : warning :=
  RuntimeWarning
    "Total Return could not be computed: single positional indexer is out-of-bounds".
Definition W_cagr_index : warning :=
  RuntimeWarning
    "CAGR could not be computed: single positional indexer is out-of-bounds".

(** What each metric block of [compute_metrics] leaves: a finite value and
    no warning, or NaN and a warning. *)
Definition guarded (r : fval * list warning) : Prop :=
  (isfinite r.1 = true ∧ r.2 = []) ∨ (r.1 = NaN ∧ r.2 ≠ []).

(** A finite value above zero; a return that is a number above [lo]. *)
Definition positive (x : fval) : Prop := ∃ q : Qc, x = Fin q ∧ (0 < q)%Qc.

Definition return_above (lo : Qc) (x : fval) : Prop :=
  ∃ q : Qc, x = Fin q ∧ (lo < q)%Qc.

Definition return_from (lo : Qc) (x : fval) : Prop :=
  ∃ q : Qc, x = Fin q ∧ (lo ≤ q)%Qc.


(** ** The arithmetic of the Total Return in binary64

    Lines 65-69, 77 and 95-98 once more, on closes that are floats
    already, over IEEE binary64 (the kernel's primitive floats): the
    missing closes dropped, the return of each row against the previous
    one, the rows with a missing return dropped, and the guarded quotient.
    A row is its close and its return.  This is the arithmetic NumPy
    performs; it serves to test the invariance under scaling, which is
    proved for exact arithmetic. *)

Module Binary64.

Import PrimFloat.

Definition notna (x : float) : bool := negb (is_nan x).

Definition pct_change (l : list float) : list float :=
  zip_with (λ x prev, (x / prev - 1)%float) l (nan :: l).

Definition clean (closes : list float) : list (float * float) :=
  let valid := filter (λ c, notna c) closes in
  filter (λ r, notna r.2) (zip valid (pct_change valid)).

Definition total_return_metric (closes : list float) : float :=
  let d := clean closes in
  if (length d <? 2)%nat then nan
  else
    match head d, last d with
    | Some first, Some final =>
        let total_return := (final.1 / first.1 - 1)%float in
        if is_finite total_return then total_return else nan
    | _, _ => nan
    end.

(** Every close multiplied by [k]. *)
Definition scale_close (k : float) (closes : list float) : list float :=
  (λ c, (k * c)%float) <$> closes.

(** The closes 10, 20, 12; three closes near the largest float; and 0.1 as
    Python reads it. *)
Definition closes_10_20_12 : list float := [10; 20; 12]%float.


End Binary64.

(** ** A NumPy to run the model on examples

    Square roots and powers to nine decimals, in fixed point: the power of
    a positive base is [exp (y * ln x)], both by their series. *)

Module Sample.

Local Open Scope Q_scope.

Definition scale : Z := 1000000000.

Definition round9 (q : Q) : Q := Qred (Qfloor (q * inject_Z scale) # 1000000000).

Definition sqrt9 (q : Q) : Q :=
  Qred (Z.sqrt (Qfloor (q * inject_Z (scale * scale))) # 1000000000).

(** [sum_{i < n} term_i], each term obtained from the previous one. *)
Fixpoint series (n : nat) (next : nat → Q → Q) (i : nat) (term acc : Q) : Q :=
  match n with
  | O => acc
  | S n' => series n' next (S i) (round9 (next i term)) (round9 (acc + term))
  end.

(** [exp r] for [|r| <= 1], then by repeated squaring. *)
Definition exp_small (r : Q) : Q :=
  series 24 (λ i term, term * r / inject_Z (Z.of_nat (S i))) 0 1 0.

Fixpoint exp_halved (n : nat) (t : Q) : Q :=
  match n with
  | O => exp_small t
  | S n' =>
      if Qle_bool (Qabs t) 1 then exp_small t
      else let h := exp_halved n' (t / 2) in round9 (h * h)
  end.

(** [ln m = 2 atanh ((m - 1) / (m + 1))], after halving or doubling [m]
    into [1/2 .. 2]. *)
Definition ln_near_one (m : Q) : Q :=
  let z := (m - 1) / (m + 1) in
  let z2 := z * z in
  2 * series 40 (λ i term,
                   term * z2 * inject_Z (Z.of_nat (2 * i + 1))
                   / inject_Z (Z.of_nat (2 * i + 3)))
             0 z 0.

Definition ln2 : Q := ln_near_one 2.

Fixpoint ln_reduced (n : nat) (x : Q) : Q :=
  match n with
  | O => ln_near_one x
  | S n' =>
      if Qle_bool 2 x then round9 (ln2 + ln_reduced n' (x / 2))
      else if Qle_bool x (1 # 2) then round9 (ln_reduced n' (x * 2) - ln2)
      else ln_near_one x
  end.

Definition power9 (x y : fval) : fval :=
  match x, y with
  | Fin a, Fin b =>
      if decide (0 < a)%Qc
      then Fin (Q2Qc (exp_halved 64 (round9 (b * ln_reduced 64 a))))
      else if decide (a = 0%Qc) then
        (if decide (0 < b)%Qc then zero
         else if decide (b = 0%Qc) then one else PInf)
      else NaN
  | _, _ => NaN
  end.

#[export] Instance numpy9 : NumPy := {|
  sqrt_fin q := Q2Qc (sqrt9 q);
  np_power := power9
|}.

(** Rationals, days and tables for the examples. *)
Definition ratio (a b : Z) : fval := Fin (Q2Qc (a # Z.to_pos b)).
Definition price (z : Z) : cell := Num (of_Z z).
Definition day (n : Z) : cell := Stamp (n * ns_per_day)%Z.

Definition table (dates closes volumes : list cell) : DataFrame :=
  <["Date" := dates]> (<["Close" := closes]> (<["Volume" := volumes]> ∅)).

Definition daily (first_day : Z) (closes : list Z) : DataFrame :=
  table (imap (λ i _, day (first_day + Z.of_nat i)) closes)
        (price <$> closes) (price <$> closes).

(** Thirty-one closes, 100 to 130. *)
Definition closes31 : list fval := of_Z <$> seqZ 100 31.

(** A response in which no close parses, and one with three good rows. *)
Definition unparsed_frame : Frame :=
  {| index_name := "Date";
     index := [day 19723; day 19724];
     columns := <["Close" := [Junk; Junk]]>
                  (<["Volume" := [price 1000; price 1200]]> ∅) |}.

Definition good_frame : Frame :=
  {| index_name := "Date";
     index := [day 19723; day 19724; day 19725];
     columns := <["Close" := [price 10; price 20; price 15]]>
                  (<["Open" := [price 9; price 11; price 21]]>
                     (<["Volume" := [price 1000; price 1200; price 900]]> ∅)) |}.

(** Two hundred and fifty closes, 100 to 349. *)
Definition closes250 : list fval := of_Z <$> seqZ 100 250.

(** A response in which nothing parses and whose index goes by another
    name. *)
Definition junk_frame : Frame :=
  {| index_name := "Datetime";
     index := [Junk; Junk];
     columns := <["Close" := [Junk; Junk]]> (<["Volume" := [Junk; Junk]]> ∅) |}.

(** A response whose index goes by another name, as for intraday bars. *)
Definition intraday_frame : Frame :=
  {| index_name := "Datetime";
     index := [day 19723; day 19724];
     columns := <["Close" := [price 10; price 20]]>
                  (<["Volume" := [price 1000; price 1200]]> ∅) |}.

End Sample.

(** * Proofs *)

(** ** Ticker normalisation *)

Lemma is_space_upper_char c : is_space (upper_char c) = is_space c.
Proof. destruct c as [[] [] [] [] [] [] [] []]; reflexivity. Qed.

Lemma upper_char_idem c : upper_char (upper_char c) = upper_char c.
Proof. destruct c as [[] [] [] [] [] [] [] []]; reflexivity. Qed.

Lemma upper_char_eq_dot c : upper_char c = "."%char ↔ c = "."%char.
Proof. destruct c as [[] [] [] [] [] [] [] []]; split; first [reflexivity | discriminate]. Qed.

Lemma upper_char_eq_caret c : upper_char c = "^"%char ↔ c = "^"%char.
Proof. destruct c as [[] [] [] [] [] [] [] []]; split; first [reflexivity | discriminate]. Qed.

Lemma upper_idem s : upper (upper s) = upper s.
Proof. induction s as [|c s IH]; simpl; [done|]. by rewrite upper_char_idem, IH. Qed.

Lemma upper_app a b : upper (a +:+ b) = upper a +:+ upper b.
Proof. induction a as [|c a IH]; simpl; [done|]. by rewrite IH. Qed.

Lemma lstrip_upper s : lstrip (upper s) = upper (lstrip s).
Proof.
  induction s as [|c s IH]; simpl; [done|].
  rewrite is_space_upper_char. by destruct (is_space c).
Qed.

Lemma rstrip_upper s : rstrip (upper s) = upper (rstrip s).
Proof.
  induction s as [|c s IH]; simpl; [done|].
  rewrite IH, is_space_upper_char.
  destruct (rstrip s); simpl; [by destruct (is_space c)|done].
Qed.

Lemma strip_upper s : strip (upper s) = upper (strip s).
Proof. unfold strip. by rewrite lstrip_upper, rstrip_upper. Qed.

Lemma lstrip_no_lead s : no_lead (lstrip s).
Proof.
  induction s as [|c s IH]; simpl; [done|].
  destruct (is_space c) eqn:E; [done|]. simpl. done.
Qed.

Lemma no_lead_lstrip s : no_lead s → lstrip s = s.
Proof. destruct s as [|c s]; simpl; [done|]. by intros ->. Qed.

Lemma rstrip_no_lead s : no_lead s → no_lead (rstrip s).
Proof.
  destruct s as [|c s]; simpl; [done|]. intros Hc.
  destruct (rstrip s); simpl; [by rewrite Hc|done].
Qed.

Lemma rstrip_idem s : rstrip (rstrip s) = rstrip s.
Proof.
  induction s as [|c s IH]; simpl; [done|].
  destruct (rstrip s) as [|c' r] eqn:E.
  - destruct (is_space c) eqn:Ec; simpl; [done|]. by rewrite Ec.
  - simpl in *. by rewrite IH.
Qed.

Lemma strip_idem s : strip (strip s) = strip s.
Proof.
  unfold strip.
  rewrite (no_lead_lstrip (rstrip (lstrip s))).
  - apply rstrip_idem.
  - apply rstrip_no_lead, lstrip_no_lead.
Qed.

Lemma strip_no_lead s : no_lead (strip s).
Proof. apply rstrip_no_lead, lstrip_no_lead. Qed.

Lemma upper_no_lead s : no_lead s → no_lead (upper s).
Proof. destruct s; simpl; [done|]. by rewrite is_space_upper_char. Qed.

Lemma rstrip_app a b :
  b ≠ "" → rstrip b = b → rstrip (a +:+ b) = a +:+ b.
Proof.
  intros Hb Hr. induction a as [|c a IH]; [done|].
  change (String c a +:+ b) with (String c (a +:+ b)). simpl.
  rewrite IH. destruct (a +:+ b) eqn:E; [|done].
  destruct a; [by subst|discriminate].
Qed.


Lemma prefix_empty s : String.prefix "" s = true.
Proof. by destruct s. Qed.

Lemma prefix_char c c' s :
  String.prefix (String c "") (String c' s) = bool_decide (c = c').
Proof.
  change (String.prefix (String c "") (String c' s))
    with (if ascii_dec c c' then String.prefix "" s else false).
  destruct (ascii_dec c c') as [->|Hne].
  - by rewrite prefix_empty, bool_decide_eq_true_2.
  - by rewrite bool_decide_eq_false_2.
Qed.

Lemma contains_dot s : contains "." s = true ↔ "."%char ∈ chars s.
Proof.
  induction s as [|c s IH].
  - split; [discriminate|]. by intros ?%elem_of_nil.
  - change (chars (String c s)) with (c :: chars s).
    change (contains "." (String c s))
      with (String.prefix "." (String c s) || contains "." s).
    rewrite elem_of_cons, <- IH, prefix_char, orb_true_iff, bool_decide_eq_true.
    split; intros [?|?]; auto.
Qed.

Lemma startswith_caret s :
  startswith s "^" = true ↔ ∃ rest, s = String "^" rest.
Proof.
  unfold startswith. destruct s as [|c s].
  - split; [discriminate|]. by intros [? ?].
  - rewrite prefix_char, bool_decide_eq_true. split.
    + intros <-. eauto.
    + by intros [? [= <- _]].
Qed.

Lemma chars_app a b : chars (a +:+ b) = chars a ++ chars b.
Proof. induction a as [|c a IH]; [done|]. unfold chars in *. simpl. by rewrite <- IH. Qed.

Lemma chars_lstrip c s : c ∈ chars (lstrip s) → c ∈ chars s.
Proof.
  induction s as [|a s IH]; simpl; [done|].
  destruct (is_space a); [|done].
  intros Hin. change (chars (String a s)) with (a :: chars s).
  apply elem_of_cons. right. by apply IH.
Qed.

Lemma chars_rstrip c s : c ∈ chars (rstrip s) → c ∈ chars s.
Proof.
  induction s as [|a s IH]; simpl; [done|].
  change (chars (String a s)) with (a :: chars s).
  destruct (rstrip s) as [|b r].
  - destruct (is_space a); [by intros ?%elem_of_nil|].
    intros Hin. apply elem_of_cons. left.
    change (chars (String a "")) with [a] in Hin.
    by apply list_elem_of_singleton in Hin.
  - change (chars (String a (String b r))) with (a :: chars (String b r)).
    rewrite !elem_of_cons. intros [?|?]; auto.
Qed.

Lemma chars_strip c s : c ∈ chars (strip s) → c ∈ chars s.
Proof. intros Hin. by apply chars_lstrip, chars_rstrip. Qed.

Lemma chars_upper_dot s : "."%char ∈ chars (upper s) ↔ "."%char ∈ chars s.
Proof.
  induction s as [|c s IH]; simpl; [done|]. unfold chars in *; simpl.
  rewrite !elem_of_cons, IH.
  split; intros [E|?]; auto; left.
  - symmetry. by apply upper_char_eq_dot.
  - symmetry. by apply upper_char_eq_dot.
Qed.

(** The three cases of the rule, on the trimmed upper-case symbol. *)
Lemma normalize_cases ticker :
  let t := upper (strip ticker) in
  ((∃ rest, t = String "^" rest) → normalize_canadian_ticker ticker = t)
  ∧ (¬ (∃ rest, t = String "^" rest) → ("."%char ∉ chars t) →
     normalize_canadian_ticker ticker = t +:+ ".TO")
  ∧ (¬ (∃ rest, t = String "^" rest) → "."%char ∈ chars t →
     normalize_canadian_ticker ticker = t).
Proof.
  intros t. unfold normalize_canadian_ticker. fold t.
  pose proof (startswith_caret t) as Hs. pose proof (contains_dot t) as Hd.
  destruct Hs as [Hs1 Hs2], Hd as [Hd1 Hd2].
  destruct (startswith t "^"), (contains "." t); simpl;
    repeat split; intros; try done; try tauto.
  all: first [ discriminate (Hs2 ltac:(assumption))
             | discriminate (Hd2 ltac:(assumption)) ].
Qed.


Lemma normalize_stripped t :
  no_lead t → rstrip t = t → upper t = t →
  normalize_canadian_ticker t = (if startswith t "^" then t
                                 else if negb (contains "." t) then t +:+ ".TO"
                                 else t).
Proof.
  intros Hl Hr Hu. unfold normalize_canadian_ticker, strip.
  by rewrite (no_lead_lstrip t Hl), Hr, Hu.
Qed.

Lemma suffixed_stripped t :
  no_lead t → upper t = t →
  no_lead (t +:+ ".TO") ∧ rstrip (t +:+ ".TO") = t +:+ ".TO"
  ∧ upper (t +:+ ".TO") = t +:+ ".TO".
Proof.
  intros Hl Hu. repeat split.
  - by destruct t.
  - by apply rstrip_app.
  - by rewrite upper_app, Hu.
Qed.

Lemma suffixed_fixed t :
  no_lead t → upper t = t → startswith t "^" = false →
  normalize_canadian_ticker (t +:+ ".TO") = t +:+ ".TO".
Proof.
  intros Hl Hu Hs.
  destruct (suffixed_stripped t Hl Hu) as (Hl' & Hr' & Hu').
  rewrite (normalize_stripped _ Hl' Hr' Hu').
  assert (startswith (t +:+ ".TO") "^" = false) as ->.
  { destruct t as [|c t]; [done|].
    change (String c t +:+ ".TO") with (String c (t +:+ ".TO")).
    unfold startswith in *. by rewrite prefix_char in *. }
  assert (contains "." (t +:+ ".TO") = true) as ->; [|done].
  apply contains_dot. rewrite chars_app. apply elem_of_app. right.
  change (chars ".TO") with ["."%char; "T"%char; "O"%char].
  apply elem_of_cons. by left.
Qed.

Lemma normalize_idempotent ticker :
  normalize_canadian_ticker (normalize_canadian_ticker ticker)
  = normalize_canadian_ticker ticker.
Proof.
  set (t := upper (strip ticker)).
  assert (no_lead t) as Hl by apply upper_no_lead, strip_no_lead.
  assert (upper t = t) as Hu by apply upper_idem.
  assert (rstrip t = t) as Hr.
  { unfold t, strip. by rewrite rstrip_upper, rstrip_idem. }
  assert (normalize_canadian_ticker ticker
          = if startswith t "^" then t
            else if negb (contains "." t) then t +:+ ".TO" else t) as ->
    by reflexivity.
  destruct (startswith t "^") eqn:Hs.
  - by rewrite (normalize_stripped t Hl Hr Hu), Hs.
  - destruct (contains "." t) eqn:Hd; simpl.
    + by rewrite (normalize_stripped t Hl Hr Hu), Hs, Hd.
    + by apply suffixed_fixed.
Qed.

(** *** Trimming and capitals, in the words of the specification *)

Lemma is_space_whitespace c : is_space c = bool_decide (c ∈ whitespace).
Proof. destruct c as [[] [] [] [] [] [] [] []]; vm_compute; reflexivity. Qed.

Lemma is_space_true c : is_space c = true ↔ c ∈ whitespace.
Proof. by rewrite is_space_whitespace, bool_decide_eq_true. Qed.

Lemma is_space_false c : is_space c = false ↔ c ∉ whitespace.
Proof. by rewrite is_space_whitespace, bool_decide_eq_false. Qed.

Lemma upper_char_capital c : upper_char c = capital_of c.
Proof. destruct c as [[] [] [] [] [] [] [] []]; vm_compute; reflexivity. Qed.

Lemma upper_capitals s : upper s = capitals s.
Proof.
  unfold capitals, chars. induction s as [|c s IH]; [done|].
  simpl. by rewrite IH, upper_char_capital.
Qed.

Lemma blank_nil : blank "".
Proof. by intros c ?%elem_of_nil. Qed.

Lemma blank_cons c s : blank (String c s) ↔ is_space c = true ∧ blank s.
Proof.
  unfold blank. change (chars (String c s)) with (c :: chars s).
  rewrite is_space_true. split.
  - intros Hb. split; [apply Hb; by left|]. intros x Hx. apply Hb. by right.
  - intros [Hc Hs] x [->|Hx]%elem_of_cons; auto.
Qed.

Lemma lstrip_split s : ∃ a, s = a +:+ lstrip s ∧ blank a.
Proof.
  induction s as [|c s (a & IH & Ha)];
    [exists ""; split; [done|apply blank_nil]|].
  simpl. destruct (is_space c) eqn:Hc.
  - exists (String c a). split.
    + change (String c a +:+ lstrip s) with (String c (a +:+ lstrip s)).
      by rewrite <- IH.
    + by apply blank_cons.
  - exists "". split; [done|apply blank_nil].
Qed.

Lemma rstrip_split s : ∃ b, s = rstrip s +:+ b ∧ blank b.
Proof.
  induction s as [|c s (b & IH & Hb)];
    [exists ""; split; [done|apply blank_nil]|].
  simpl. destruct (rstrip s) as [|d r] eqn:Hr.
  - change ("" +:+ b) with b in IH. subst b. destruct (is_space c) eqn:Hc.
    + exists (String c s). split; [done|]. by apply blank_cons.
    + by exists s.
  - exists b. split; [|done].
    change (String c (String d r) +:+ b) with (String c (String d r +:+ b)).
    by rewrite <- IH.
Qed.

Lemma string_snoc_inv c r d :
  String c "" = r +:+ String d "" → r = "" ∧ d = c.
Proof.
  destruct r as [|e r]; [by intros [= ->]|].
  change (String e r +:+ String d "") with (String e (r +:+ String d "")).
  intros [= _ Hr]. by destruct r.
Qed.

Lemma string_cons_snoc_inv c s r d :
  s ≠ "" → String c s = r +:+ String d "" →
  ∃ r', r = String c r' ∧ s = r' +:+ String d "".
Proof.
  intros Hs. destruct r as [|e r].
  - intros [= _ Hs']. by destruct Hs.
  - change (String e r +:+ String d "") with (String e (r +:+ String d "")).
    intros [= -> ->]. eauto.
Qed.

(** What [rstrip] returns does not end in white space. *)
Lemma rstrip_no_trail s r c :
  rstrip s = r +:+ String c "" → is_space c = false.
Proof.
  revert r. induction s as [|a s IH]; intros r; simpl.
  - by destruct r.
  - destruct (rstrip s) as [|d t] eqn:Hs.
    + destruct (is_space a) eqn:Ha; [by destruct r|].
      by intros [_ ->]%string_snoc_inv.
    + intros (r' & _ & Hr)%string_cons_snoc_inv; [|done]. by apply (IH r').
Qed.

Lemma rstrip_trimmed s :
  (∀ r c, s = r +:+ String c "" → is_space c = false) → rstrip s = s.
Proof.
  induction s as [|a s IH]; intros Hs; [done|]. simpl.
  destruct s as [|d t].
  - simpl. by rewrite (Hs "" a).
  - rewrite IH; [done|]. intros r c Hr. apply (Hs (String a r)).
    by rewrite Hr.
Qed.

Lemma rstrip_blank b : blank b → rstrip b = "".
Proof.
  induction b as [|c b IH]; [done|]. intros [Hc Hb]%blank_cons.
  simpl. by rewrite IH, Hc.
Qed.

Lemma lstrip_blank b : blank b → lstrip b = "".
Proof.
  induction b as [|c b IH]; [done|]. intros [Hc Hb]%blank_cons.
  simpl. rewrite Hc. by apply IH.
Qed.

Lemma lstrip_app_blank a s : blank a → lstrip (a +:+ s) = lstrip s.
Proof.
  induction a as [|c a IH]; [done|]. intros [Hc Ha]%blank_cons.
  change (String c a +:+ s) with (String c (a +:+ s)). simpl.
  rewrite Hc. by apply IH.
Qed.

Lemma rstrip_app_blank s b : blank b → rstrip (s +:+ b) = rstrip s.
Proof.
  intros Hb. induction s as [|c s IH]; [by apply rstrip_blank|].
  change (String c s +:+ b) with (String c (s +:+ b)). simpl. by rewrite IH.
Qed.

Lemma strip_trim_of s : trim_of s (strip s).
Proof.
  destruct (lstrip_split s) as (a & Hs & Ha).
  destruct (rstrip_split (lstrip s)) as (b & Hl & Hb).
  exists a, b. split; [|split; [done|split; [done|split]]].
  - unfold strip. by rewrite <- Hl.
  - intros c r Hr. apply is_space_false.
    pose proof (strip_no_lead s) as Hn. by rewrite Hr in Hn.
  - intros r c Hr. apply is_space_false.
    by apply (rstrip_no_trail (lstrip s) r).
Qed.

Lemma trim_of_strip s core : trim_of s core → core = strip s.
Proof.
  intros (a & b & -> & Ha & Hb & Hlead & Htrail). unfold strip.
  rewrite lstrip_app_blank by done.
  destruct core as [|c r].
  - simpl. by rewrite lstrip_blank.
  - change (String c r +:+ b) with (String c (r +:+ b)). simpl lstrip.
    assert (is_space c = false) as -> by (apply is_space_false; eauto).
    change (String c (r +:+ b)) with (String c r +:+ b).
    rewrite rstrip_app_blank by done. symmetry. apply rstrip_trimmed.
    intros r' c' Hr. apply is_space_false. eauto.
Qed.

(** C3: the rule of [normalize_canadian_ticker].  Every ticker has one
    trimmed form [core] (the ticker without the white space at its two
    ends); with [t] the capitals of [core]: an index symbol (one starting
    with "^") is returned as [t]; a symbol with no dot gets ".TO" appended;
    any other symbol is returned as [t].  The function is total, so it
    always returns a string; the three examples of the specification hold,
    and so do three with white space and small letters. *)
Theorem normalize_canadian_ticker_rule (ticker : string) :
  (∃ core,
     trim_of ticker core
     ∧ (∀ core', trim_of ticker core' → core' = core)
     ∧ let t := capitals core in
       ((∃ rest, t = String "^" rest) → normalize_canadian_ticker ticker = t)
       ∧ (¬ (∃ rest, t = String "^" rest) → ("."%char ∉ chars t) →
          normalize_canadian_ticker ticker = t +:+ ".TO")
       ∧ (¬ (∃ rest, t = String "^" rest) → "."%char ∈ chars t →
          normalize_canadian_ticker ticker = t))
  ∧ normalize_canadian_ticker "XYZ" = "XYZ.TO"
  ∧ normalize_canadian_ticker "^GSPTSE" = "^GSPTSE"
  ∧ normalize_canadian_ticker "XYZ.TO" = "XYZ.TO"
  ∧ normalize_canadian_ticker "  ry " = "RY.TO"
  ∧ normalize_canadian_ticker " Shop.to" = "SHOP.TO"
  ∧ normalize_canadian_ticker "^gsptse  " = "^GSPTSE".
Proof.
  split; [|repeat split; reflexivity].
  exists (strip ticker). split; [apply strip_trim_of|].
  split; [intros core' H'; by apply trim_of_strip|].
  rewrite <- upper_capitals. apply normalize_cases.
Qed.

(** C8, as the specification words it, fails on a ticker with white space
    before the index marker: " ^GSPTSE" has no dot and does not start with
    "^", yet it is trimmed first and returned as the index "^GSPTSE", with
    no suffix. *)
Lemma normalize_index_after_space :
  startswith " ^GSPTSE" "^" = false
  ∧ ("."%char ∉ chars " ^GSPTSE")
  ∧ normalize_canadian_ticker " ^GSPTSE" = "^GSPTSE"
  ∧ ¬ (∃ s, normalize_canadian_ticker " ^GSPTSE" = s +:+ ".TO").
Proof.
  repeat split.
  - intros Hin%contains_dot. vm_compute in Hin. discriminate Hin.
  - intros [s Hs].
    do 8 (destruct s as [|? s]; vm_compute in Hs; try discriminate Hs).
Qed.

(** C8, amended: for a ticker with no dot whose trimmed form does not start
    with "^", normalisation is the trimmed upper-case symbol with ".TO"
    appended, and normalising that again appends nothing more; and for every
    ticker normalisation is idempotent. *)
Theorem normalize_suffix_once_idempotent (ticker : string) :
  (startswith (strip ticker) "^" = false → ("."%char ∉ chars ticker) →
   normalize_canadian_ticker ticker = upper (strip ticker) +:+ ".TO"
   ∧ normalize_canadian_ticker (upper (strip ticker) +:+ ".TO")
     = upper (strip ticker) +:+ ".TO")
  ∧ normalize_canadian_ticker (normalize_canadian_ticker ticker)
    = normalize_canadian_ticker ticker.
Proof.
  split; [|apply normalize_idempotent].
  intros Hs Hd.
  assert (normalize_canadian_ticker ticker = upper (strip ticker) +:+ ".TO") as E.
  { destruct (normalize_cases ticker) as (_ & H2 & _). apply H2.
    - intros [rest Hr].
      assert (startswith (upper (strip ticker)) "^" = true) as Hu
        by (apply startswith_caret; eauto).
      destruct (strip ticker) as [|c u]; [discriminate Hu|].
      unfold startswith in *. simpl upper in Hu.
      rewrite prefix_char in *.
      apply bool_decide_eq_true in Hu. apply bool_decide_eq_false in Hs.
      apply Hs. symmetry. by apply upper_char_eq_caret.
    - rewrite chars_upper_dot. intros Hin. apply Hd. by apply chars_strip. }
  split; [exact E|]. rewrite <- E. apply normalize_idempotent.
Qed.

(** ** Arithmetic on [fval] *)








Lemma filter_iff_on {A} (P1 P2 : A → Prop)
    `{!∀ x, Decision (P1 x), !∀ x, Decision (P2 x)} (l : list A) :
  (∀ x, x ∈ l → P1 x ↔ P2 x) → filter P1 l = filter P2 l.
Proof.
  induction l as [|a l IH]; intros Hiff; [done|].
  rewrite !filter_cons.
  assert (P1 a ↔ P2 a) as Ha by (apply Hiff; by left).
  rewrite IH by (intros x Hx; apply Hiff; by right).
  destruct (decide (P1 a)), (decide (P2 a)); tauto || done.
Qed.

(** ** Metrics *)

Section Metrics.

Context `{NumPy}.












Lemma missing_columns_nil df :
  missing_columns df = [] ↔ ∀ c, c ∈ required → df !! c ≠ None.
Proof.
  unfold missing_columns. split.
  - intros Hnil c Hc Hnone.
    assert (c ∈ filter (λ c, df !! c = None) required) as Hin
      by by apply list_elem_of_filter.
    rewrite Hnil in Hin. by apply elem_of_nil in Hin.
  - intros Hall. apply elem_of_nil_inv. intros c [Hnone Hc]%list_elem_of_filter.
    by apply (Hall c).
Qed.

Lemma compute_metrics_missing df c :
  c ∈ required → df !! c = None →
  compute_metrics df
  = Raise (ValueError ("compute_metrics missing required columns: "
                       +:+ repr_list (missing_columns df))).
Proof.
  intros Hc Hnone. unfold compute_metrics.
  rewrite bool_decide_eq_false_2; [done|].
  intros Hnil. by apply (proj1 (missing_columns_nil df) Hnil c).
Qed.

Lemma compute_metrics_agree df df' :
  (∀ c, c ∈ required → df' !! c = df !! c) →
  compute_metrics df' = compute_metrics df.
Proof.
  intros Hsame.
  assert (missing_columns df' = missing_columns df) as Hm.
  { unfold missing_columns. apply filter_iff_on.
    intros c Hc. by rewrite (Hsame c Hc). }
  assert (clean df' = clean df) as Hc.
  { unfold clean, valid_rows, column.
    rewrite !Hsame; [done| |]; unfold required; rewrite !elem_of_cons; tauto. }
  unfold compute_metrics. by rewrite Hm, Hc.
Qed.

(** With the columns present and fewer than two rows left, the result is
    the degraded record. *)
Lemma compute_metrics_short df :
  missing_columns df = [] → length (clean df) < 2 →
  compute_metrics df
  = Return ({| Start := match head (clean df) with
                        | Some r => isoformat (date_of (Date r))
                        | None => "N/A"
                        end;
               End_ := match last (clean df) with
                       | Some r => isoformat (date_of (Date r))
                       | None => "N/A"
                       end;
               Total_Return := NaN; CAGR := NaN;
               Annualized_Volatility := NaN; Max_Drawdown := NaN |},
            [W_not_enough]).
Proof.
  intros Hm Hlen. unfold compute_metrics. rewrite Hm. simpl.
  apply Nat.ltb_lt in Hlen. by rewrite Hlen.
Qed.

Lemma compute_metrics_long df first final :
  missing_columns df = [] → 2 ≤ length (clean df) →
  head (clean df) = Some first → last (clean df) = Some final →
  ∃ m ws, compute_metrics df = Return (m, ws)
    ∧ Start m = isoformat (date_of (Date first))
    ∧ End_ m = isoformat (date_of (Date final))
    ∧ Total_Return m
      = finite_or_nan (fsub (fdiv (Close final) (Close first)) one).
Proof.
  intros Hm Hlen Hh Hl. unfold compute_metrics. rewrite Hm. simpl.
  assert ((length (clean df) <? 2) = false) as -> by by apply Nat.ltb_ge.
  unfold total_return_of at 1. rewrite Hh, Hl.
  set (tr := fsub (fdiv (Close final) (Close first)) one).
  unfold finite_or_nan at 5.
  destruct (isfinite tr) eqn:Hfin; simpl.
  - destruct (cagr_of (clean df) tr) as [cagr w2],
      (volatility_of (clean df)) as [vol w3],
      (max_drawdown _) as [mdd w4].
    eexists _, _. split; [reflexivity|]. simpl. repeat split.
    unfold finite_or_nan. by rewrite Hfin.
  - destruct (cagr_of (clean df) NaN) as [cagr w2],
      (volatility_of (clean df)) as [vol w3],
      (max_drawdown _) as [mdd w4].
    eexists _, _. split; [reflexivity|]. simpl. repeat split.
Qed.

Lemma fdiv_nan_r x : fdiv x NaN = NaN.
Proof. by destruct x. Qed.

(** The first valid row never survives: its return is missing. *)
Lemma clean_second_row df t0 c0 t1 c1 rest :
  valid_rows df = (t0, c0) :: (t1, c1) :: rest →
  notna (fsub (fdiv c1 c0) one) = true →
  head (clean df)
  = Some {| Date := t1; Close := c1; Return_ := fsub (fdiv c1 c0) one |}.
Proof.
  intros Hrows Hret. unfold clean, with_returns. rewrite Hrows.
  simpl. rewrite fdiv_nan_r. simpl.
  rewrite filter_cons_False by (simpl; auto).
  rewrite filter_cons_True by (simpl; by rewrite Hret). done.
Qed.

(** Cleaning always loses the first valid row. *)
Lemma length_clean df :
  valid_rows df ≠ [] → length (clean df) < length (valid_rows df).
Proof.
  intros Hne. unfold clean, with_returns.
  destruct (valid_rows df) as [|[t0 c0] rows]; [done|].
  simpl. rewrite fdiv_nan_r.
  rewrite filter_cons_False by (simpl; auto).
  eapply Nat.le_lt_trans; [apply length_filter|].
  rewrite length_zip_with. simpl. lia.
Qed.

Lemma last_is_Some {A} (l : list A) x : head l = Some x → is_Some (last l).
Proof.
  destruct l as [|a l]; [done|]. intros _.
  rewrite last_lookup. apply lookup_lt_is_Some. simpl. lia.
Qed.

End Metrics.

(** C7: a table without one of the columns "Date", "Close", "Volume" makes
    [compute_metrics] raise a [ValueError] instead of returning; and two
    tables that agree on these three columns give the same result, whatever
    other columns they have. *)
Theorem compute_metrics_required_columns `{NumPy} (df df' : DataFrame) :
  ((∃ c, c ∈ ["Date"; "Close"; "Volume"] ∧ df !! c = None) →
   ∃ msg, compute_metrics df = Raise (ValueError msg))
  ∧ ((∀ c, c ∈ ["Date"; "Close"; "Volume"] → df' !! c = df !! c) →
     compute_metrics df' = compute_metrics df).
Proof.
  split.
  - intros (c & Hc & Hnone). eexists. apply (compute_metrics_missing df c); [|done].
    unfold required. rewrite !elem_of_cons in *. tauto.
  - intros Hsame. apply compute_metrics_agree. intros c Hc. apply Hsame.
    unfold required in Hc. rewrite !elem_of_cons in *. tauto.
Qed.

(** C5: when the required columns are present and fewer than two rows are
    left after cleaning, [compute_metrics] returns (it does not raise) the
    four return-based metrics as NaN, with the start and end dates taken
    from the row that is left, or "N/A" when none is. *)
Theorem compute_metrics_few_rows `{NumPy} (df : DataFrame) :
  missing_columns df = [] → length (clean df) < 2 →
  ∃ start end_,
    compute_metrics df
    = Return ({| Start := start; End_ := end_;
                 Total_Return := NaN; CAGR := NaN;
                 Annualized_Volatility := NaN; Max_Drawdown := NaN |},
              [W_not_enough])
    ∧ (clean df = [] → start = "N/A" ∧ end_ = "N/A")
    ∧ (∀ r, clean df = [r] →
         start = isoformat (date_of (Date r))
         ∧ end_ = isoformat (date_of (Date r))).
Proof.
  intros Hm Hlen. eexists _, _. split; [by apply compute_metrics_short|].
  split.
  - by intros ->.
  - by intros r ->.
Qed.

(** C1, amended: with the required columns present and at least two rows
    left after cleaning, the Total Return is the last remaining close over
    the first remaining close, minus 1, when that value is finite, and NaN
    otherwise. *)
Theorem total_return_metric `{NumPy} (df : DataFrame) (first final : Row) :
  missing_columns df = [] → 2 ≤ length (clean df) →
  head (clean df) = Some first → last (clean df) = Some final →
  ∃ m ws, compute_metrics df = Return (m, ws)
    ∧ Total_Return m
      = finite_or_nan (fsub (fdiv (Close final) (Close first)) one).
Proof.
  intros Hm Hlen Hh Hl.
  destruct (compute_metrics_long df first final Hm Hlen Hh Hl)
    as (m & ws & E & _ & _ & Htr).
  eauto.
Qed.

(** C10, amended: when the return of the second valid row is defined, the
    reported start date is the date of that second valid row. *)
Theorem start_is_second_valid_row `{NumPy} (df : DataFrame)
    (t0 t1 : Z) (c0 c1 : fval) (rest : list (Z * fval)) :
  missing_columns df = [] →
  valid_rows df = (t0, c0) :: (t1, c1) :: rest →
  notna (fsub (fdiv c1 c0) one) = true →
  ∃ m ws, compute_metrics df = Return (m, ws)
    ∧ Start m = isoformat (date_of t1).
Proof.
  intros Hm Hrows Hret.
  pose proof (clean_second_row df t0 c0 t1 c1 rest Hrows Hret) as Hh.
  destruct (decide (length (clean df) < 2)) as [Hlen|Hlen].
  - rewrite (compute_metrics_short df Hm Hlen), Hh. eauto.
  - destruct (last_is_Some _ _ Hh) as [final Hl].
    destruct (compute_metrics_long df _ final Hm ltac:(lia) Hh Hl)
      as (m & ws & E & Hs & _).
    eauto.
Qed.


(** ** Drawdown *)

Lemma fmul_one_l x : fmul one x = x.
Proof.
  destruct x as [a| | |]; simpl; try done.
  - f_equal. ring.
Qed.

#[local] Arguments fadd : simpl never.
#[local] Arguments fsub : simpl never.
#[local] Arguments fmul : simpl never.
#[local] Arguments fdiv : simpl never.
#[local] Arguments fmax : simpl never.
#[local] Arguments fmin : simpl never.

Lemma accumulate_from_lookup f acc l i :
  i < length l →
  accumulate_from f acc l !! i = Some (foldl f acc (take (S i) l)).
Proof.
  revert acc i. induction l as [|x l IH]; intros acc i Hi; simpl in *; [lia|].
  destruct i as [|i]; simpl.
  - by destruct l.
  - rewrite IH by lia. done.
Qed.

Lemma length_accumulate_from f acc l :
  length (accumulate_from f acc l) = length l.
Proof. revert acc. induction l as [|x l IH]; intros acc; simpl; [done|]. by rewrite IH. Qed.

Lemma length_np_accumulate f l : length (np_accumulate f l) = length l.
Proof. destruct l; simpl; [done|]. by rewrite length_accumulate_from. Qed.

Lemma np_accumulate_lookup f x l i :
  i < S (length l) →
  np_accumulate f (x :: l) !! i = Some (foldl f x (take i l)).
Proof.
  intros Hi. destruct i as [|i]; simpl; [done|].
  apply accumulate_from_lookup. lia.
Qed.

Lemma length_na_accum_func f fill l : length (na_accum_func f fill l) = length l.
Proof.
  unfold na_accum_func. rewrite length_zip_with_l_eq; [done|].
  by rewrite length_np_accumulate, length_fmap.
Qed.

Lemma fill_id (fill : fval) l :
  Forall (λ x, isnan x = false) l →
  (λ x, if isnan x then fill else x) <$> l = l.
Proof.
  induction 1 as [|x l Hx _ IH]; simpl; [done|]. rewrite Hx. by f_equal.
Qed.

(** On a series without missing entries the cumulative product is the
    product of each prefix. *)
Lemma cumprod_lookup g i :
  Forall (λ x, isnan x = false) g → i < length g →
  cumprod g !! i = Some (foldl fmul one (take (S i) g)).
Proof.
  intros Hg Hi. unfold cumprod, na_accum_func.
  rewrite (fill_id one g Hg), lookup_zip_with.
  destruct g as [|x g]; simpl in Hi; [lia|].
  rewrite np_accumulate_lookup by lia.
  destruct (lookup_lt_is_Some_2 (x :: g) i) as [y Hy]; [simpl; lia|].
  rewrite Hy. simpl.
  assert (isnan y = false) as -> by by eapply (proj1 (Forall_lookup _ _) Hg).
  by rewrite fmul_one_l.
Qed.

Lemma fmax_ninf_l x : isnan x = false → fmax NInf x = x.
Proof. destruct x; intros Hx; [reflexivity..|discriminate Hx]. Qed.

Lemma fmax_ninf_r x : isnan x = false → fmax x NInf = x.
Proof. destruct x; intros Hx; [reflexivity..|discriminate Hx]. Qed.

Lemma fmax_notnan x y :
  isnan x = false → isnan y = false → isnan (fmax x y) = false.
Proof.
  destruct x, y; try done; unfold fmax; intros _ _;
    by match goal with |- context [if ?b then _ else _] => destruct b end.
Qed.

Lemma dropna_cons_nan x l : isnan x = true → dropna (x :: l) = dropna l.
Proof.
  intros Hx. unfold dropna. rewrite filter_cons_False; [done|].
  unfold notna. rewrite Hx. simpl. auto.
Qed.

Lemma dropna_cons_notnan x l : isnan x = false → dropna (x :: l) = x :: dropna l.
Proof.
  intros Hx. unfold dropna. rewrite filter_cons_True; [done|].
  unfold notna. rewrite Hx. simpl. auto.
Qed.

Lemma dropna_notnan l : Forall (λ x, isnan x = false) (dropna l).
Proof.
  apply Forall_forall. intros x [Hx _]%list_elem_of_filter.
  unfold notna in Hx. by destruct (isnan x).
Qed.

Lemma dropna_id l : Forall (λ x, isnan x = false) l → dropna l = l.
Proof.
  induction 1 as [|x l Hx _ IH]; [done|].
  by rewrite dropna_cons_notnan, IH.
Qed.

Lemma foldl_fmax_fill acc l :
  isnan acc = false →
  foldl fmax acc ((λ x, if isnan x then NInf else x) <$> l)
  = foldl fmax acc (dropna l).
Proof.
  revert acc. induction l as [|x l IH]; intros acc Hacc; [done|].
  rewrite fmap_cons. simpl foldl. destruct (isnan x) eqn:Hx.
  - rewrite dropna_cons_nan, fmax_ninf_r by done. by apply IH.
  - rewrite dropna_cons_notnan by done. simpl foldl.
    apply IH. by apply fmax_notnan.
Qed.

Lemma np_accumulate_fmax_fill c0 rest :
  dropna (c0 :: rest) ≠ [] →
  foldl fmax (if isnan c0 then NInf else c0)
        ((λ x, if isnan x then NInf else x) <$> rest)
  = series_max (c0 :: rest).
Proof.
  intros Hne. unfold series_max. rewrite foldl_fmax_fill.
  - destruct (isnan c0) eqn:H0.
    + rewrite dropna_cons_nan in * by done.
      pose proof (dropna_notnan rest) as Hall.
      destruct (dropna rest) as [|x r]; [done|].
      simpl foldl. rewrite fmax_ninf_l; [done|]. by inversion Hall.
    + by rewrite dropna_cons_notnan.
  - by destruct (isnan c0) eqn:H0.
Qed.

Lemma cummax_lookup c i ci :
  c !! i = Some ci →
  cummax c !! i
  = Some (if isnan ci then NaN else series_max (take (S i) c)).
Proof.
  intros Hi. unfold cummax, na_accum_func.
  rewrite lookup_zip_with, Hi. simpl.
  destruct c as [|c0 rest]; [done|].
  rewrite fmap_cons, np_accumulate_lookup
    by (rewrite length_fmap; apply lookup_lt_Some in Hi; simpl in Hi; lia).
  simpl. destruct (isnan ci) eqn:Hci; [done|].
  rewrite <- fmap_take, np_accumulate_fmax_fill; [done|].
  intros Hnil.
  assert (ci ∈ dropna (take (S i) (c0 :: rest))) as Hin.
  { apply list_elem_of_filter. split; [unfold notna; by rewrite Hci|].
    apply list_elem_of_lookup. exists i. by rewrite lookup_take_lt by lia. }
  simpl in Hin. rewrite Hnil in Hin. by apply elem_of_nil in Hin.
Qed.

Lemma fadd_one_isnan x : isnan (fadd one x) = isnan x.
Proof. destruct x; reflexivity. Qed.

Lemma fdiv_nan_l y : fdiv NaN y = NaN.
Proof. reflexivity. Qed.

Lemma length_drawdowns s : length (drawdowns s) = length s.
Proof.
  unfold drawdowns. rewrite length_zip_with_l_eq.
  - unfold cumprod. by rewrite length_na_accum_func, length_fmap.
  - unfold cummax. by rewrite length_na_accum_func.
Qed.

Lemma wealth_lookup s i :
  Forall (λ x, isnan x = false) s → i < length s →
  cumprod (fadd one <$> s) !! i = Some (wealth_at s i).
Proof.
  intros Hs Hi. rewrite cumprod_lookup.
  - unfold wealth_at. by rewrite fmap_take.
  - apply Forall_fmap. eapply Forall_impl; [exact Hs|].
    intros x Hx. simpl. by rewrite fadd_one_isnan.
  - by rewrite length_fmap.
Qed.

Lemma wealth_prefix s i :
  Forall (λ x, isnan x = false) s → i < length s →
  take (S i) (cumprod (fadd one <$> s)) = wealth_at s <$> seq 0 (S i).
Proof.
  intros Hs Hi. apply list_eq. intros j.
  destruct (decide (j < S i)) as [Hj|Hj].
  - rewrite lookup_take_lt, wealth_lookup by (done || lia).
    by rewrite list_lookup_fmap, lookup_seq_lt.
  - rewrite lookup_take_ge by lia.
    rewrite list_lookup_fmap, lookup_seq_ge; [done|lia].
Qed.

(** The drawdown series of the program is the one of the specification. *)
Lemma drawdowns_lookup s i :
  Forall (λ x, isnan x = false) s → i < length s →
  drawdowns s !! i = Some (drawdown_at s i).
Proof.
  intros Hs Hi. unfold drawdowns.
  rewrite lookup_zip_with, wealth_lookup by done. simpl.
  rewrite (cummax_lookup _ _ _ (wealth_lookup s i Hs Hi)). simpl.
  rewrite wealth_prefix by done. unfold drawdown_at, peak_at.
  destruct (isnan (wealth_at s i)) eqn:Hw; [|done].
  destruct (wealth_at s i); try done.
Qed.

Lemma drawdowns_spec s :
  Forall (λ x, isnan x = false) s →
  drawdowns s = drawdown_at s <$> seq 0 (length s).
Proof.
  intros Hs. apply list_eq. intros i.
  destruct (decide (i < length s)) as [Hi|Hi].
  - rewrite drawdowns_lookup by done.
    by rewrite list_lookup_fmap, lookup_seq_lt.
  - rewrite lookup_ge_None_2 by (rewrite length_drawdowns; lia).
    rewrite list_lookup_fmap, lookup_seq_ge; [done|lia].
Qed.

(** *** The minimum *)

Lemma fmin_notnan x y :
  isnan x = false → isnan y = false → isnan (fmin x y) = false.
Proof.
  destruct x, y; try done; unfold fmin; intros _ _;
    by match goal with |- context [if ?b then _ else _] => destruct b end.
Qed.

Lemma fmin_le_l x y (z : Qc) :
  isnan x = false → isnan y = false →
  fleb x (Fin z) = true → fleb (fmin x y) (Fin z) = true.
Proof.
  destruct x as [a| | |], y as [c| | |]; try done; intros _ _ Hle.
  unfold fmin, fltb. case_bool_decide as Hlt; [|done].
  unfold fleb in *. apply bool_decide_eq_true in Hle.
  apply bool_decide_eq_true. apply Qclt_le_weak in Hlt.
  by apply (Qcle_trans _ a).
Qed.

Lemma fmin_le_r x y (z : Qc) :
  isnan x = false → isnan y = false →
  fleb y (Fin z) = true → fleb (fmin x y) (Fin z) = true.
Proof.
  destruct x as [a| | |], y as [c| | |]; try done; intros _ _ Hle.
  unfold fmin, fltb. case_bool_decide as Hlt; [done|].
  unfold fleb in *. apply bool_decide_eq_true in Hle.
  apply bool_decide_eq_true. apply Qcnot_lt_le in Hlt.
  by apply (Qcle_trans _ c).
Qed.

Lemma foldl_fmin_notnan acc r :
  isnan acc = false → Forall (λ x, isnan x = false) r →
  isnan (foldl fmin acc r) = false.
Proof.
  intros Hacc Hr. revert acc Hacc.
  induction Hr as [|x r Hx _ IH]; intros acc Hacc; [done|].
  simpl. apply IH. by apply fmin_notnan.
Qed.

Lemma foldl_fmin_bound acc r (z : Qc) :
  isnan acc = false → Forall (λ x, isnan x = false) r →
  fleb acc (Fin z) = true ∨ Fin z ∈ r →
  fleb (foldl fmin acc r) (Fin z) = true.
Proof.
  intros Hacc Hr. revert acc Hacc.
  induction Hr as [|x r Hx _ IH]; intros acc Hacc Hb.
  - destruct Hb as [Hb|Hb]; [done|]. by apply elem_of_nil in Hb.
  - simpl. apply IH; [by apply fmin_notnan|].
    destruct Hb as [Hb|Hb].
    + left. by apply fmin_le_l.
    + apply elem_of_cons in Hb as [<-|Hb]; [|by right].
      left. apply fmin_le_r; [done..|].
      unfold fleb. apply bool_decide_eq_true. apply Qcle_refl.
Qed.

(** The minimum is below every entry that is a number. *)
Lemma series_min_le l (z q : Qc) :
  Fin z ∈ l → series_min l = Fin q → (q ≤ z)%Qc.
Proof.
  intros Hin Hmin. unfold series_min in Hmin.
  assert (Fin z ∈ dropna l) as Hin' by by apply list_elem_of_filter.
  pose proof (dropna_notnan l) as Hall.
  destruct (dropna l) as [|x r]; [done|].
  apply Forall_cons in Hall as [Hx Hr].
  assert (fleb (foldl fmin x r) (Fin z) = true) as Hle.
  { apply foldl_fmin_bound; [done..|].
    apply elem_of_cons in Hin' as [<-|?]; [left|by right].
    unfold fleb. apply bool_decide_eq_true. apply Qcle_refl. }
  rewrite Hmin in Hle. by apply bool_decide_eq_true in Hle.
Qed.

Lemma series_min_all_nan l :
  Forall (λ x, isnan x = true) l → series_min l = NaN.
Proof.
  intros Hall. unfold series_min.
  assert (dropna l = []) as ->; [|done].
  apply elem_of_nil_inv. intros x [Hx Hin]%list_elem_of_filter.
  rewrite Forall_forall in Hall. unfold notna in Hx.
  by rewrite (Hall x Hin) in Hx.
Qed.

Lemma foldl_fixed {A} (f : A → A → A) (a : A) l :
  f a a = a → Forall (λ x, x = a) l → foldl f a l = a.
Proof.
  intros Hf. induction 1 as [|x l -> _ IH]; [done|]. simpl. by rewrite Hf.
Qed.

(** *** A first wealth of zero or infinity leaves no drawdown defined *)

Lemma zero_or_nan_fmul x y : zero_or_nan x → zero_or_nan (fmul x y).
Proof.
  intros [->| ->]; [|by right].
  destruct y as [b| | |]; unfold fmul, zero, signed_inf.
  - left. f_equal. ring.
  - right. by rewrite !decide_False by apply (irreflexivity (<)%Qc).
  - right. by rewrite !decide_False by apply (irreflexivity (<)%Qc).
  - by right.
Qed.

Lemma zero_or_nan_fmax x y :
  zero_or_nan x → zero_or_nan y → zero_or_nan (fmax x y).
Proof. intros [->| ->] [->| ->]; by (left + right). Qed.

Lemma zero_or_nan_fdiv x y : zero_or_nan x → zero_or_nan y → fdiv x y = NaN.
Proof.
  intros [->| ->] [->| ->]; reflexivity.
Qed.

Lemma not_finite_fmul x y : not_finite x → not_finite (fmul x y).
Proof.
  unfold not_finite.
  destruct x as [a| | |], y as [b| | |]; try done; intros _;
    unfold fmul, signed_inf; by repeat case_decide.
Qed.

Lemma not_finite_fmax x y :
  not_finite x → not_finite y → not_finite (fmax x y).
Proof. unfold not_finite. by destruct x, y. Qed.

Lemma not_finite_fdiv x y : not_finite x → not_finite y → fdiv x y = NaN.
Proof. unfold not_finite. by destruct x, y. Qed.

Section Classes.

Variable P : fval → Prop.
Hypothesis P_nan : P NaN.
Hypothesis P_fmul : ∀ x y, P x → P (fmul x y).
Hypothesis P_fmax : ∀ x y, P x → P y → P (fmax x y).

Lemma foldl_fmul_class acc l : P acc → P (foldl fmul acc l).
Proof.
  revert acc. induction l as [|x l IH]; intros acc Hacc; [done|].
  simpl. apply IH. by apply P_fmul.
Qed.

Lemma wealth_class s0 rest i :
  P (fadd one s0) → P (wealth_at (s0 :: rest) i).
Proof.
  intros H0. unfold wealth_at. simpl. apply foldl_fmul_class.
  by rewrite fmul_one_l.
Qed.

Lemma foldl_fmax_class acc l : P acc → Forall P l → P (foldl fmax acc l).
Proof.
  intros Hacc Hl. revert acc Hacc.
  induction Hl as [|x l Hx _ IH]; intros acc Hacc; [done|].
  simpl. apply IH. by apply P_fmax.
Qed.

Lemma series_max_class l : Forall P l → P (series_max l).
Proof.
  intros Hl. unfold series_max.
  assert (Forall P (dropna l)) as Hd.
  { rewrite Forall_forall in *. intros x [_ Hin]%list_elem_of_filter. auto. }
  destruct Hd as [|x r Hx Hr]; [done|]. by apply foldl_fmax_class.
Qed.

Lemma peak_class s0 rest i :
  P (fadd one s0) → P (peak_at (s0 :: rest) i).
Proof.
  intros H0. unfold peak_at. apply series_max_class.
  apply Forall_fmap, Forall_forall. intros j _. by apply wealth_class.
Qed.

End Classes.

Lemma drawdowns_all_nan s0 rest :
  Forall (λ x, isnan x = false) (s0 :: rest) →
  zero_or_nan (fadd one s0) ∨ not_finite (fadd one s0) →
  Forall (λ x, isnan x = true) (drawdowns (s0 :: rest)).
Proof.
  intros Hs Hc. rewrite drawdowns_spec by done.
  apply Forall_fmap, Forall_forall. intros i _. simpl. unfold drawdown_at.
  destruct Hc as [Hc|Hc].
  - rewrite zero_or_nan_fdiv; [done| |].
    + apply (wealth_class zero_or_nan); [apply zero_or_nan_fmul|done].
    + apply (peak_class zero_or_nan);
        [by right|apply zero_or_nan_fmul|apply zero_or_nan_fmax|done].
  - rewrite not_finite_fdiv; [done| |].
    + apply (wealth_class not_finite); [apply not_finite_fmul|done].
    + apply (peak_class not_finite);
        [done|apply not_finite_fmul|apply not_finite_fmax|done].
Qed.

Lemma drawdown_first_zero s0 rest (a : Qc) :
  fadd one s0 = Fin a → a ≠ 0%Qc →
  drawdown_at (s0 :: rest) 0 = zero.
Proof.
  intros Ha Hne. unfold drawdown_at, peak_at, wealth_at. simpl.
  rewrite fmul_one_l, Ha. unfold series_max.
  rewrite dropna_cons_notnan by done. simpl.
  unfold fdiv. rewrite decide_False by done.
  unfold fsub, fneg, one, fadd, zero. f_equal. by field.
Qed.

Lemma max_drawdown_pair series :
  dropna (to_numeric <$> series) ≠ [] →
  max_drawdown series
  = let out := series_min (drawdowns (dropna (to_numeric <$> series))) in
    if isfinite out then (out, []) else (NaN, [W_mdd_nonfinite]).
Proof.
  intros Hne. unfold max_drawdown.
  rewrite bool_decide_eq_false_2 by done. simpl.
  by destruct (isfinite _).
Qed.

Lemma max_drawdown_nonpositive series (q : Qc) :
  (max_drawdown series).1 = Fin q → (q ≤ 0)%Qc.
Proof.
  unfold max_drawdown.
  pose proof (dropna_notnan (to_numeric <$> series)) as Hs.
  destruct (dropna (to_numeric <$> series)) as [|s0 rest] eqn:Es; [done|].
  rewrite bool_decide_eq_false_2 by done.
  destruct (isfinite (series_min (drawdowns (s0 :: rest)))) eqn:Hfin;
    simpl; [|done].
  intros Hout.
  destruct (fadd one s0) as [a| | |] eqn:Ha.
  - destruct (decide (a = 0%Qc)) as [->|Hne].
    + rewrite series_min_all_nan in Hout; [done|].
      apply drawdowns_all_nan; [done|]. left. rewrite Ha. by left.
    + apply (series_min_le (drawdowns (s0 :: rest))); [|done].
      apply list_elem_of_lookup. exists 0.
      rewrite drawdowns_lookup by (done || simpl; lia).
      by rewrite (drawdown_first_zero s0 rest a).
  - rewrite series_min_all_nan in Hout; [done|].
    apply drawdowns_all_nan; [done|]. right. by rewrite Ha.
  - rewrite series_min_all_nan in Hout; [done|].
    apply drawdowns_all_nan; [done|]. right. by rewrite Ha.
  - rewrite series_min_all_nan in Hout; [done|].
    apply drawdowns_all_nan; [done|]. right. by rewrite Ha.
Qed.

(** *** A series of zero returns *)

Lemma fadd_one_zero : fadd one zero = one.
Proof. reflexivity. Qed.

Lemma drawdown_of_one : fsub (fdiv one one) one = zero.
Proof. reflexivity. Qed.

Lemma series_of_constant (f : fval → fval → fval) (a : fval) l :
  isnan a = false → f a a = a → l ≠ [] → Forall (λ x, x = a) l →
  match dropna l with
  | [] => NaN
  | x :: r => foldl f x r
  end = a.
Proof.
  intros Ha Hf Hne Hall.
  rewrite dropna_id by (eapply Forall_impl; [exact Hall|]; by intros x ->).
  destruct Hall as [|x r -> Hr]; [done|]. by apply foldl_fixed.
Qed.

Lemma wealth_of_zero_returns s i :
  Forall (λ x, x = zero) s → wealth_at s i = one.
Proof.
  intros Hs. unfold wealth_at. apply foldl_fixed; [apply fmul_one_l|].
  apply Forall_fmap, Forall_take. eapply Forall_impl; [exact Hs|].
  intros x ->. apply fadd_one_zero.
Qed.

Lemma drawdown_of_zero_returns s i :
  Forall (λ x, x = zero) s → drawdown_at s i = zero.
Proof.
  intros Hs. unfold drawdown_at, peak_at.
  rewrite wealth_of_zero_returns by done.
  assert (series_max (wealth_at s <$> seq 0 (S i)) = one) as ->;
    [|apply drawdown_of_one].
  apply (series_of_constant fmax one); [done..|].
  apply Forall_fmap, Forall_forall. intros j _. simpl.
  by apply wealth_of_zero_returns.
Qed.

Lemma max_drawdown_of_zero_returns series :
  dropna (to_numeric <$> series) ≠ [] →
  Forall (λ x, x = zero) (dropna (to_numeric <$> series)) →
  max_drawdown series = (zero, []).
Proof.
  intros Hne Hz. rewrite max_drawdown_pair by done.
  rewrite drawdowns_spec by apply dropna_notnan.
  assert (series_min (drawdown_at (dropna (to_numeric <$> series))
                      <$> seq 0 (length (dropna (to_numeric <$> series))))
          = zero) as ->; [|done].
  apply (series_of_constant fmin zero); [done..| |].
  - by destruct (dropna (to_numeric <$> series)).
  - apply Forall_fmap, Forall_forall. intros j _. simpl.
    by apply drawdown_of_zero_returns.
Qed.

(** *** The entries kept and the least drawdown, in the words of the
    specification *)

Lemma valid_entries_cons c series :
  valid_entries (c :: series)
  = match c with
    | Num x => if isnan x then [] else [x]
    | _ => []
    end ++ valid_entries series.
Proof. reflexivity. Qed.

Lemma dropna_to_numeric series :
  dropna (to_numeric <$> series) = valid_entries series.
Proof.
  induction series as [|c series IH]; [done|].
  rewrite fmap_cons, valid_entries_cons, <- IH.
  destruct c as [x| |]; simpl to_numeric.
  - destruct (isnan x) eqn:Hx.
    + by rewrite dropna_cons_nan.
    + by rewrite dropna_cons_notnan.
  - by rewrite dropna_cons_nan.
  - by rewrite dropna_cons_nan.
Qed.

Lemma fleb_refl x : isnan x = false → fleb x x = true.
Proof.
  destruct x as [a| | |]; try done. intros _.
  apply bool_decide_eq_true. apply Qcle_refl.
Qed.

Lemma fleb_trans x y z : fleb x y = true → fleb y z = true → fleb x z = true.
Proof.
  destruct x as [a| | |], y as [b| | |], z as [c| | |]; try done.
  unfold fleb. rewrite !bool_decide_eq_true. apply Qcle_trans.
Qed.

Lemma fmin_cases x y :
  isnan x = false → isnan y = false →
  (fmin x y = x ∧ fleb x y = true) ∨ (fmin x y = y ∧ fleb y x = true).
Proof.
  destruct x as [a| | |], y as [b| | |]; try done; intros _ _;
    try (by left); try (by right).
  unfold fmin, fltb, fleb. case_bool_decide as Hlt.
  - right. split; [done|]. apply bool_decide_eq_true. by apply Qclt_le_weak.
  - left. split; [done|]. apply bool_decide_eq_true. by apply Qcnot_lt_le.
Qed.

Lemma foldl_fmin_least acc r :
  isnan acc = false → Forall (λ x, isnan x = false) r →
  least_defined (acc :: r) (foldl fmin acc r).
Proof.
  intros Hacc Hr. revert acc Hacc.
  induction Hr as [|x r Hx _ IH]; intros acc Hacc.
  - split; [by left|]. split; [done|].
    intros y ->%list_elem_of_singleton _. by apply fleb_refl.
  - simpl. destruct (IH (fmin acc x)) as (Hin & Hnan & Hle);
      [by apply fmin_notnan|].
    set (m := foldl fmin (fmin acc x) r) in *.
    assert (fleb m acc = true ∧ fleb m x = true) as [Hl1 Hl2].
    { assert (fleb m (fmin acc x) = true) as Hm
        by (apply Hle; [by left|by apply fmin_notnan]).
      destruct (fmin_cases acc x Hacc Hx) as [[E Hc]|[E Hc]]; rewrite E in Hm.
      - split; [done|]. by apply (fleb_trans _ acc).
      - split; [|done]. by apply (fleb_trans _ x). }
    split; [|split; [done|]].
    + apply elem_of_cons in Hin as [Hin|Hin]; [|by do 2 right].
      rewrite Hin.
      destruct (fmin_cases acc x Hacc Hx) as [[-> _]|[-> _]];
        [by left|right; by left].
    + intros y Hy Hy0. rewrite !elem_of_cons in Hy.
      destruct Hy as [->|[->|Hy]]; [done..|].
      apply Hle; [by right|done].
Qed.

(** [Series.min] returns the least defined entry. *)
Lemma series_min_least l : dropna l ≠ [] → least_defined l (series_min l).
Proof.
  intros Hne. unfold series_min.
  pose proof (dropna_notnan l) as Hall.
  assert (∀ x, x ∈ dropna l ↔ isnan x = false ∧ x ∈ l) as Hd.
  { intros x. unfold dropna. rewrite list_elem_of_filter. unfold notna.
    by destruct (isnan x); simpl; intuition. }
  destruct (dropna l) as [|x r] eqn:E; [done|].
  apply Forall_cons in Hall as [Hx Hr].
  destruct (foldl_fmin_least x r Hx Hr) as (Hin & Hnan & Hle).
  split; [by apply Hd|]. split; [done|].
  intros y Hy Hy0. apply Hle; [|done]. by apply Hd.
Qed.

Lemma dropna_nil_all_nan l : dropna l = [] → Forall (λ x, isnan x = true) l.
Proof.
  intros Hd. apply Forall_forall. intros x Hx.
  destruct (isnan x) eqn:E; [done|].
  assert (x ∈ dropna l) as Hin
    by (apply list_elem_of_filter; unfold notna; by rewrite E).
  rewrite Hd in Hin. by apply elem_of_nil in Hin.
Qed.

(** C4: [max_drawdown] keeps the entries that are numbers (NaN left out);
    with none left it returns NaN and records a warning; otherwise it
    returns the least defined value of (wealth index / running maximum - 1)
    over the series, or NaN with a warning when that is not finite or when
    no value is defined; a value it returns is never positive; on a series
    of zero returns it is 0; and on the returns +10%, -50%, (text), +10% it
    is -50%. *)
Theorem max_drawdown_spec (series : list cell) :
  let s := valid_entries series in
  let dd := drawdown_at s <$> seq 0 (length s) in
  (s = [] → max_drawdown series = (NaN, [W_mdd_empty]))
  ∧ (s ≠ [] →
     (∃ m, least_defined dd m
           ∧ max_drawdown series
             = if isfinite m then (m, []) else (NaN, [W_mdd_nonfinite]))
     ∨ (Forall (λ x, isnan x = true) dd
        ∧ max_drawdown series = (NaN, [W_mdd_nonfinite])))
  ∧ (∀ q : Qc, (max_drawdown series).1 = Fin q → (q ≤ 0)%Qc)
  ∧ (s ≠ [] → Forall (λ x, x = zero) s → max_drawdown series = (zero, []))
  ∧ max_drawdown [Num (Fin (Q2Qc (1 # 10))); Num (Fin (Q2Qc (-1 # 2))); Junk;
                  Num (Fin (Q2Qc (1 # 10)))]
    = (Fin (Q2Qc (-1 # 2)), []).
Proof.
  intros s dd. unfold dd, s. clear s dd.
  rewrite <- dropna_to_numeric.
  set (s := dropna (to_numeric <$> series)).
  split; [|split; [|split; [|split]]].
  - intros Hs. unfold max_drawdown. fold s. by rewrite Hs.
  - intros Hs. rewrite max_drawdown_pair by done. fold s.
    rewrite drawdowns_spec by apply dropna_notnan. cbv zeta.
    set (dd := drawdown_at s <$> seq 0 (length s)).
    destruct (dropna dd) as [|x r] eqn:Hd.
    + right. apply dropna_nil_all_nan in Hd. split; [done|].
      by rewrite series_min_all_nan.
    + left. exists (series_min dd). split; [|done].
      apply series_min_least. by rewrite Hd.
  - apply max_drawdown_nonpositive.
  - apply max_drawdown_of_zero_returns.
  - vm_compute. reflexivity.
Qed.

(** ** Rolling indicators *)

Lemma Qc_square_nonneg (d : Qc) : (0 ≤ d * d)%Qc.
Proof.
  destruct (Qclt_le_dec d 0) as [Hneg|Hpos].
  - replace (d * d)%Qc with ((- d) * (- d))%Qc by ring.
    assert (0 ≤ - d)%Qc as Hd.
    { apply Qclt_le_weak, Qcopp_le_compat in Hneg. exact Hneg. }
    by apply Qcmult_nonneg_nonneg.
  - by apply Qcmult_nonneg_nonneg.
Qed.

Lemma of_nat_pos n : n ≠ 0 → ∃ q : Qc, of_nat n = Fin q ∧ (0 < q)%Qc.
Proof.
  intros Hn. eexists. split; [reflexivity|].
  unfold Qclt. simpl. rewrite Qred_correct.
  unfold Qlt. simpl. lia.
Qed.

Lemma fdiv_finite (a b : Qc) : b ≠ 0%Qc → fdiv (Fin a) (Fin b) = Fin (a / b).
Proof. intros Hb. unfold fdiv. by rewrite decide_False. Qed.

Lemma fsum_from_finite (acc : Qc) l :
  all_finite l → ∃ q, foldl fadd (Fin acc) l = Fin q.
Proof.
  intros Hl. revert acc. induction Hl as [|x l Hx _ IH]; intros acc; [by eexists|].
  destruct x as [a| | |]; try done. simpl. apply IH.
Qed.

Lemma fsum_finite l : all_finite l → ∃ q, fsum l = Fin q.
Proof. apply fsum_from_finite. Qed.

Lemma fsum_from_nonneg (acc : Qc) l :
  (0 ≤ acc)%Qc → Forall nonneg l →
  ∃ q, foldl fadd (Fin acc) l = Fin q ∧ (0 ≤ q)%Qc.
Proof.
  intros Hacc Hl. revert acc Hacc.
  induction Hl as [|x l (a & -> & Ha) _ IH]; intros acc Hacc; [by eexists|].
  simpl. apply IH. by apply Qcplus_nonneg_nonneg.
Qed.

Lemma mean_finite obs :
  all_finite obs → obs ≠ [] → isfinite (mean obs) = true.
Proof.
  intros Hobs Hne. unfold mean.
  destruct (fsum_finite obs Hobs) as [s ->].
  destruct (of_nat_pos (length obs)) as (n & -> & Hn); [by destruct obs|].
  rewrite fdiv_finite; [done|]. intros ->. by apply (irreflexivity (<)%Qc) in Hn.
Qed.

Lemma all_finite_notnan l : all_finite l → Forall (λ x, isnan x = false) l.
Proof. intros Hl. eapply Forall_impl; [exact Hl|]. by intros []. Qed.

Lemma nanvar_nonneg obs :
  all_finite obs → 2 ≤ length obs → nonneg (nanvar obs).
Proof.
  intros Hobs Hlen. unfold nanvar. cbv zeta.
  rewrite (dropna_id obs) by by apply all_finite_notnan.
  assert ((length obs <=? 1) = false) as -> by (apply Nat.leb_gt; lia).
  destruct (fsum_finite obs Hobs) as [s ->].
  destruct (of_nat_pos (length obs)) as (n & -> & Hn); [lia|].
  destruct (of_nat_pos (length obs - 1)) as (n1 & -> & Hn1); [lia|].
  rewrite fdiv_finite
    by (intros ->; by apply (irreflexivity (<)%Qc) in Hn).
  destruct (fsum_from_nonneg 0
              ((λ x, fmul (fsub (Fin (s / n)) x) (fsub (Fin (s / n)) x)) <$> obs))
    as (v & Hv & Hv0).
  - apply Qcle_refl.
  - apply Forall_fmap. eapply Forall_impl; [exact Hobs|].
    intros [a| | |] Ha; try done. simpl. eexists. split; [reflexivity|].
    apply Qc_square_nonneg.
  - unfold fsum, zero. rewrite Hv.
    rewrite fdiv_finite
      by (intros ->; by apply (irreflexivity (<)%Qc) in Hn1).
    eexists. split; [reflexivity|].
    apply Qcmult_nonneg_nonneg; [done|]. by apply Qclt_le_weak, Qcinv_pos.
Qed.

Lemma np_sqrt_nonneg `{NumPy} x : nonneg x → isfinite (np_sqrt x) = true.
Proof.
  intros (q & -> & Hq). unfold np_sqrt.
  rewrite decide_False; [done|]. by apply Qcle_not_lt.
Qed.

Lemma fmul_finite x y :
  isfinite x = true → isfinite y = true → isfinite (fmul x y) = true.
Proof. by destruct x, y. Qed.

Lemma finite_from_undefined_before n l :
  finite_from n l → undefined_before n l.
Proof.
  intros Hl i x Hx. destruct (Hl i x Hx) as [Hlt Hge]. split.
  - intros Hnan. destruct (decide (i < n)) as [|Hi]; [done|].
    assert (isfinite x = true) as Hfin by (apply Hge; lia).
    by destruct x.
  - intros Hi. by rewrite (Hlt Hi).
Qed.

Lemma length_rolling w agg l : length (rolling w agg l) = length l.
Proof. unfold rolling. by rewrite length_fmap, length_seq. Qed.

Lemma length_pct_change l : length (pct_change l) = length l.
Proof. unfold pct_change. rewrite length_zip_with. simpl. lia. Qed.

Lemma rolling_lookup w agg l i :
  i < length l →
  rolling w agg l !! i
  = Some (let obs := dropna (drop (S i - w) (take (S i) (prep_value <$> l))) in
          if length obs <? w then NaN else agg obs).
Proof.
  intros Hi. unfold rolling. by rewrite list_lookup_fmap, lookup_seq_lt.
Qed.

Lemma prep_finite l : all_finite l → prep_value <$> l = l.
Proof.
  induction 1 as [|x l Hx _ IH]; [done|].
  rewrite fmap_cons, IH. unfold prep_value. by rewrite Hx.
Qed.

Section Rolling.

Variable w : nat.
Variable agg : list fval → fval.
Hypothesis w_pos : w ≠ 0.
Hypothesis agg_finite :
  ∀ obs, all_finite obs → length obs = w → isfinite (agg obs) = true.

(** On finite entries the first [w - 1] results are missing. *)
Lemma rolling_finite l :
  all_finite l → finite_from (w - 1) (rolling w agg l).
Proof.
  intros Hl i x Hx.
  assert (i < length l) as Hi
    by (apply lookup_lt_Some in Hx; by rewrite length_rolling in Hx).
  rewrite rolling_lookup in Hx by done. injection Hx as <-.
  rewrite prep_finite by done. cbv zeta.
  set (obs := drop (S i - w) (take (S i) l)).
  assert (all_finite obs) as Hobs by by apply Forall_drop, Forall_take.
  assert (length obs = S i - (S i - w)) as Hlen.
  { unfold obs. rewrite length_drop, length_take. lia. }
  rewrite dropna_id by by apply all_finite_notnan.
  split; intros Hcmp.
  - assert ((length obs <? w) = true) as -> by (apply Nat.ltb_lt; lia). done.
  - assert ((length obs <? w) = false) as -> by (apply Nat.ltb_ge; lia).
    apply agg_finite; [done|lia].
Qed.

(** After one missing entry in front, the first [w] results are missing. *)
Lemma rolling_after_gap r :
  all_finite r → finite_from w (rolling w agg (NaN :: r)).
Proof.
  intros Hr i x Hx.
  assert (i < S (length r)) as Hi
    by (apply lookup_lt_Some in Hx; by rewrite length_rolling in Hx).
  rewrite rolling_lookup in Hx by done. injection Hx as <-.
  change (list_fmap fval fval prep_value r) with (prep_value <$> r).
  rewrite prep_finite by done. change (prep_value NaN) with NaN.
  destruct (decide (S i ≤ w)) as [Hle|Hgt].
  - replace (S i - w) with 0 by lia.
    change (drop 0 (NaN :: take i r)) with (NaN :: take i r).
    rewrite dropna_cons_nan by done.
    rewrite dropna_id by by apply all_finite_notnan, Forall_take.
    rewrite length_take.
    assert ((i `min` length r <? w) = true) as -> by (apply Nat.ltb_lt; lia).
    split; [done|lia].
  - replace (S i - w) with (S (i - w)) by lia.
    change (drop (S (i - w)) (NaN :: take i r)) with (drop (i - w) (take i r)).
    set (obs := drop (i - w) (take i r)).
    assert (all_finite obs) as Hobs by by apply Forall_drop, Forall_take.
    assert (length obs = w) as Hlen.
    { unfold obs. rewrite length_drop, length_take. lia. }
    rewrite dropna_id by by apply all_finite_notnan.
    assert ((length obs <? w) = false) as -> by (apply Nat.ltb_ge; lia).
    split; [lia|]. intros _. by apply agg_finite.
Qed.

End Rolling.


Lemma finite_from_fmap (f : fval → fval) n l :
  f NaN = NaN → (∀ x, isfinite x = true → isfinite (f x) = true) →
  finite_from n l → finite_from n (f <$> l).
Proof.
  intros Hnan Hfin Hl i y Hy.
  rewrite list_lookup_fmap in Hy.
  destruct (l !! i) as [x|] eqn:Hx; [|done]. injection Hy as <-.
  destruct (Hl i x Hx) as [Hlt Hge]. split.
  - intros Hi. by rewrite (Hlt Hi).
  - intros Hi. by apply Hfin, Hge.
Qed.

Lemma finite_from_nil n : finite_from n [].
Proof. by intros i x Hx. Qed.

Lemma pct_finite x p :
  isfinite x = true → is_price p → isfinite (fsub (fdiv x p) one) = true.
Proof.
  intros Hx [Hp Hp0]. destruct x as [a| | |], p as [b| | |]; try done.
  rewrite fdiv_finite; [done|]. intros ->. by apply Hp0.
Qed.

Lemma returns_of_prices c0 cs :
  Forall is_price (c0 :: cs) →
  all_finite (zip_with (λ x prev, fsub (fdiv x prev) one) cs (c0 :: cs)).
Proof.
  revert c0. induction cs as [|c1 cs IH]; intros c0 Hall.
  - constructor.
  - apply Forall_cons in Hall as [H0 Hall].
    pose proof Hall as [[H1 _] _]%Forall_cons.
    simpl. constructor; [by apply pct_finite|]. by apply IH.
Qed.

Lemma pct_change_prices c0 cs :
  Forall is_price (c0 :: cs) →
  ∃ rets, pct_change (c0 :: cs) = NaN :: rets ∧ all_finite rets.
Proof.
  intros Hall. eexists. split; [|by apply returns_of_prices].
  unfold pct_change. simpl. by rewrite fdiv_nan_r.
Qed.

Lemma prices_finite closes : Forall is_price closes → all_finite closes.
Proof. intros Hall. eapply Forall_impl; [exact Hall|]. by intros x [? _]. Qed.

Lemma rolling_std_finite `{NumPy} obs :
  all_finite obs → length obs = 30 → isfinite (np_sqrt (nanvar obs)) = true.
Proof.
  intros Hobs Hlen. apply np_sqrt_nonneg, nanvar_nonneg; [done|lia].
Qed.

Lemma sqrt_252_finite `{NumPy} : isfinite (np_sqrt (of_Z 252)) = true.
Proof. apply np_sqrt_nonneg. eexists. split; [reflexivity|done]. Qed.

(** In exact arithmetic, on finite non-zero closes, the leading entries are
    the only undefined ones. *)
Lemma indicators_of_prices `{NumPy} (closes : list fval) :
  Forall is_price closes →
  let ind := indicators closes in
  length (MA50 ind) = length closes
  ∧ length (MA200 ind) = length closes
  ∧ length (Returns ind) = length closes
  ∧ length (Vol30 ind) = length closes
  ∧ undefined_before 49 (MA50 ind)
  ∧ undefined_before 199 (MA200 ind)
  ∧ undefined_before 30 (Vol30 ind).
Proof.
  intros Hall ind. unfold ind, indicators, rolling_mean, rolling_std.
  cbv zeta. cbn [MA50 MA200 Returns Vol30].
  pose proof (prices_finite closes Hall) as Hfin.
  split; [by rewrite length_rolling|].
  split; [by rewrite length_rolling|].
  split; [by rewrite length_pct_change|].
  split; [by rewrite length_fmap, length_rolling, length_pct_change|].
  split; [|split].
  - apply finite_from_undefined_before.
    apply (rolling_finite 50 mean); [done| |done].
    intros obs Hobs Hlen. apply mean_finite; [done|]. by destruct obs.
  - apply finite_from_undefined_before.
    apply (rolling_finite 200 mean); [done| |done].
    intros obs Hobs Hlen. apply mean_finite; [done|]. by destruct obs.
  - apply finite_from_undefined_before, finite_from_fmap.
    + reflexivity.
    + intros x Hx. apply fmul_finite; [done|apply sqrt_252_finite].
    + destruct closes as [|c0 cs].
      * apply finite_from_nil.
      * destruct (pct_change_prices c0 cs Hall) as (rets & -> & Hrets).
        apply (rolling_after_gap 30); [done| |done].
        intros obs. apply rolling_std_finite.
Qed.

(** *** Whatever the closes *)

Lemma rolling_leading w agg l : leading_undefined (w - 1) (rolling w agg l).
Proof.
  intros i x Hx Hi.
  assert (i < length l) as Hl
    by (apply lookup_lt_Some in Hx; by rewrite length_rolling in Hx).
  rewrite rolling_lookup in Hx by done. injection Hx as <-. cbv zeta.
  set (obs := dropna _).
  assert (length obs ≤ S i) as Hlen.
  { unfold obs, dropna. etrans; [apply length_filter|].
    rewrite length_drop, length_take. lia. }
  by assert ((length obs <? w) = true) as -> by (apply Nat.ltb_lt; lia).
Qed.

(** After one missing entry in front, the first [w] results are missing. *)
Lemma rolling_leading_gap w agg r :
  leading_undefined w (rolling w agg (NaN :: r)).
Proof.
  intros i x Hx Hi.
  assert (i < S (length r)) as Hl
    by (apply lookup_lt_Some in Hx; by rewrite length_rolling in Hx).
  rewrite rolling_lookup in Hx by done. injection Hx as <-.
  change (list_fmap fval fval prep_value r) with (prep_value <$> r).
  change (prep_value NaN) with NaN.
  replace (S i - w) with 0 by lia.
  change (drop 0 (NaN :: take i (prep_value <$> r)))
    with (NaN :: take i (prep_value <$> r)).
  rewrite dropna_cons_nan by done.
  set (obs := dropna _).
  assert (length obs ≤ i) as Hlen.
  { unfold obs, dropna. etrans; [apply length_filter|].
    rewrite length_take. lia. }
  by assert ((length obs <? w) = true) as -> by (apply Nat.ltb_lt; lia).
Qed.

Lemma pct_change_cons c0 cs :
  pct_change (c0 :: cs)
  = NaN :: zip_with (λ x prev, fsub (fdiv x prev) one) cs (c0 :: cs).
Proof. unfold pct_change. simpl. by rewrite fdiv_nan_r. Qed.

Lemma leading_undefined_fmap (f : fval → fval) n l :
  f NaN = NaN → leading_undefined n l → leading_undefined n (f <$> l).
Proof.
  intros Hf Hl i y Hy Hi. rewrite list_lookup_fmap in Hy.
  destruct (l !! i) as [x|] eqn:Hx; [|done]. injection Hy as <-.
  pose proof (Hl i x Hx Hi) as Hnan. destruct x; try done. by rewrite Hf.
Qed.

(** C2, amended: the four derived series have one entry per row; whatever
    the closes, the return of the first row, the 50-day average of the
    first 49 rows, the 200-day average of the first 199 and the 30-day
    volatility of the first 30 (not 29: the return of the first row is
    itself undefined) are undefined.  No bound can be raised: on the 250
    closes 100, 101, ..., 349 these are the only undefined entries, and the
    averages of rows 50 and 200 are 124.5 and 199.5. *)
Theorem indicators_leading_undefined `{NumPy} (closes : list fval) :
  let ind := indicators closes in
  length (MA50 ind) = length closes
  ∧ length (MA200 ind) = length closes
  ∧ length (Returns ind) = length closes
  ∧ length (Vol30 ind) = length closes
  ∧ leading_undefined 1 (Returns ind)
  ∧ leading_undefined 49 (MA50 ind)
  ∧ leading_undefined 199 (MA200 ind)
  ∧ leading_undefined 30 (Vol30 ind)
  ∧ let sample := indicators Sample.closes250 in
    undefined_before 49 (MA50 sample)
    ∧ undefined_before 199 (MA200 sample)
    ∧ undefined_before 30 (Vol30 sample)
    ∧ MA50 sample !! 49 = Some (Fin (Q2Qc (249 # 2)))
    ∧ MA200 sample !! 199 = Some (Fin (Q2Qc (399 # 2))).
Proof.
  intros ind.
  split; [by apply length_rolling|].
  split; [by apply length_rolling|].
  split; [by apply length_pct_change|].
  split; [unfold ind, indicators, rolling_std; cbn [Vol30];
          by rewrite length_fmap, length_rolling, length_pct_change|].
  split; [|split; [|split; [|split]]].
  - unfold ind, indicators. cbn [Returns].
    destruct closes as [|c0 cs]; [by intros i x Hx|].
    rewrite pct_change_cons. intros [|i] x Hx Hi; [|lia]. by injection Hx as <-.
  - apply (rolling_leading 50).
  - apply (rolling_leading 200).
  - unfold ind, indicators, rolling_std. cbn [Vol30].
    apply leading_undefined_fmap; [done|].
    destruct closes as [|c0 cs]; [by intros i x Hx|].
    rewrite pct_change_cons. apply rolling_leading_gap.
  - assert (Forall is_price Sample.closes250) as Hp
      by (apply (bool_decide_unpack _); vm_compute; exact I).
    destruct (indicators_of_prices Sample.closes250 Hp)
      as (_ & _ & _ & _ & H50 & H200 & H30).
    cbv zeta. split; [done|]. split; [done|]. split; [done|].
    unfold indicators. cbn [MA50 MA200].
    split; apply (bool_decide_unpack _); vm_compute; exact I.
Qed.

(** ** The dashboard *)

Lemma append_empty s : s +:+ "" = s.
Proof.
  induction s as [|c s IH]; [done|].
  change (String c s +:+ "") with (String c (s +:+ "")). by rewrite IH.
Qed.

(** C6: when the provider returns nothing, an empty table, or a table with
    the three columns in which no row parses, [build_dashboard_html] raises
    a [ValueError] whose message contains the normalised ticker, and the
    files are left as they were. *)
Theorem build_dashboard_html_no_data `{NumPy}
    (history : string → string → option Frame)
    (format_2f : fval → string) (to_html : Figure → string)
    (writable : string → bool) (fs : gmap string string)
    (ticker period out_html : string) :
  let t := normalize_canadian_ticker ticker in
  (history t period = None
   ∨ (∃ hist, history t period = Some hist ∧ frame_empty hist = true)
   ∨ (∃ hist df0 df,
        history t period = Some hist ∧ frame_empty hist = false
        ∧ reset_index hist = Return df0
        ∧ select ["Date"; "Close"; "Volume"] df0 = Return df
        ∧ parse_bars df = [])) →
  let r := build_dashboard_html history format_2f to_html writable fs
             ticker period out_html in
  (∃ pre post, outcome r = Raise (ValueError (pre +:+ t +:+ post)))
  ∧ files r = fs.
Proof.
  intros t Hcase r. unfold r, build_dashboard_html. fold t.
  destruct Hcase as [Hnone|[(hist & Hh & He)|(hist & df0 & df & Hh & He & Hr & Hs & Hp)]].
  - rewrite Hnone. simpl. split; [|done].
    exists "No price data returned for ticker: ", "".
    by rewrite append_empty.
  - rewrite Hh, He. simpl. split; [|done].
    exists "No price data returned for ticker: ", "".
    by rewrite append_empty.
  - rewrite Hh, He, Hr, Hs, Hp. simpl. split; [|done].
    by exists "Price data returned for ",
      ", but could not be parsed into numeric Date/Close/Volume.".
Qed.


(** ** More on the metrics *)

Section MoreMetrics.

Context `{NumPy}.

Lemma head_last_of_long {A} (l : list A) :
  2 ≤ length l → ∃ x y, head l = Some x ∧ last l = Some y.
Proof.
  intros Hlen. destruct l as [|x l]; [simpl in Hlen; lia|].
  destruct (last_is_Some (x :: l) x eq_refl) as [y Hy]. eauto.
Qed.

(** With the three columns present the function returns. *)
Lemma compute_metrics_returns df :
  missing_columns df = [] → ∃ m ws, compute_metrics df = Return (m, ws).
Proof.
  intros Hm. destruct (decide (length (clean df) < 2)) as [Hlen|Hlen].
  - rewrite (compute_metrics_short df Hm Hlen). eauto.
  - destruct (head_last_of_long (clean df)) as (x & y & Hx & Hy); [lia|].
    destruct (compute_metrics_long df x y Hm ltac:(lia) Hx Hy)
      as (m & ws & E & _). eauto.
Qed.

Lemma guarded_check (x : fval) (w : warning) :
  guarded (if negb (isfinite x) then (NaN, [w]) else (x, [])).
Proof.
  unfold guarded. destruct (isfinite x) eqn:E; simpl; [left|right]; done.
Qed.

Lemma guarded_nan (w : warning) : guarded (NaN, [w]).
Proof. by right. Qed.

Lemma guarded_total_return d : guarded (total_return_of d).
Proof.
  unfold total_return_of.
  destruct (head d), (last d); auto using guarded_check, guarded_nan.
Qed.

Lemma guarded_cagr d tr : guarded (cagr_of d tr).
Proof.
  unfold cagr_of.
  destruct (head d), (last d); auto using guarded_nan.
  destruct (fleb _ _); [apply guarded_nan|].
  destruct (isfinite tr); [apply guarded_check|apply guarded_nan].
Qed.

Lemma guarded_volatility d : guarded (volatility_of d).
Proof. apply guarded_check. Qed.

Lemma guarded_max_drawdown series : guarded (max_drawdown series).
Proof.
  unfold max_drawdown. case_bool_decide; [apply guarded_nan|apply guarded_check].
Qed.

Lemma finite_or_nan_guarded x w : guarded (x, w) → finite_or_nan x = x.
Proof.
  unfold finite_or_nan, guarded. simpl. intros [[-> _]|[-> _]]; done.
Qed.

(** The shape of every result: the degraded record, or the four guarded
    blocks side by side. *)
Lemma compute_metrics_shape df m ws :
  compute_metrics df = Return (m, ws) →
  (Total_Return m = NaN ∧ CAGR m = NaN ∧ Annualized_Volatility m = NaN
   ∧ Max_Drawdown m = NaN ∧ ws = [W_not_enough])
  ∨ ∃ r1 r2 r3 r4,
      guarded r1 ∧ guarded r2 ∧ guarded r3 ∧ guarded r4
      ∧ Total_Return m = r1.1 ∧ CAGR m = r2.1
      ∧ Annualized_Volatility m = r3.1 ∧ Max_Drawdown m = r4.1
      ∧ ws = r1.2 ++ r2.2 ++ r3.2 ++ r4.2.
Proof.
  unfold compute_metrics.
  destruct (negb (bool_decide (missing_columns df = []))); [done|].
  destruct (length (clean df) <? 2).
  - intros [= <- <-]. left. done.
  - pose proof (guarded_total_return (clean df)) as G1.
    destruct (total_return_of (clean df)) as [tr w1].
    pose proof (guarded_cagr (clean df) tr) as G2.
    destruct (cagr_of (clean df) tr) as [cagr w2].
    pose proof (guarded_volatility (clean df)) as G3.
    destruct (volatility_of (clean df)) as [vol w3].
    pose proof (guarded_max_drawdown (Num <$> (Return_ <$> clean df))) as G4.
    destruct (max_drawdown _) as [mdd w4].
    destruct (head (clean df)), (last (clean df)); try done.
    intros [= <- <-]. right.
    exists (tr, w1), (cagr, w2), (vol, w3), (mdd, w4).
    cbn [Total_Return CAGR Annualized_Volatility Max_Drawdown fst snd].
    rewrite (finite_or_nan_guarded _ _ G1), (finite_or_nan_guarded _ _ G2),
      (finite_or_nan_guarded _ _ G3), (finite_or_nan_guarded _ _ G4).
    done.
Qed.

Lemma app_nil_iff {A} (l1 l2 : list A) : l1 ++ l2 = [] ↔ l1 = [] ∧ l2 = [].
Proof. split; [apply app_eq_nil|by intros [-> ->]]. Qed.

Lemma guarded_quiet r : guarded r → r.2 = [] ↔ isfinite r.1 = true.
Proof.
  intros [[Hf Hw]|[Hn Hw]]; split; try done.
  intros Hf. by rewrite Hn in Hf.
Qed.

Lemma guarded_not_infinite r : guarded r → r.1 = NaN ∨ isfinite r.1 = true.
Proof. intros [[Hf _]|[Hn _]]; auto. Qed.

Lemma missing_columns_insert_volume df v :
  is_Some (df !! "Volume") →
  missing_columns (<["Volume" := v]> df) = missing_columns df.
Proof.
  intros [v0 Hv]. unfold missing_columns. apply list_filter_iff. intros c.
  destruct (decide (c = "Volume")) as [->|Hne].
  - rewrite lookup_insert_eq, Hv. done.
  - by rewrite lookup_insert_ne.
Qed.

End MoreMetrics.

(** X2: no metric [compute_metrics] returns is infinite: each of the four
    is a finite number or NaN. *)
Theorem metrics_never_infinite `{NumPy} (df : DataFrame) :
  match compute_metrics df with
  | Return (m, _) =>
      Forall (λ x, x = NaN ∨ isfinite x = true)
        [Total_Return m; CAGR m; Annualized_Volatility m; Max_Drawdown m]
  | Raise _ => True
  end.
Proof.
  destruct (compute_metrics df) as [[m ws]|e] eqn:E; [|done].
  destruct (compute_metrics_shape df m ws E)
    as [(-> & -> & -> & -> & _)
       |(r1 & r2 & r3 & r4 & G1 & G2 & G3 & G4 & -> & -> & -> & -> & _)].
  - repeat (apply Forall_cons_2; [by left|]). constructor.
  - repeat (apply Forall_cons_2; [by apply guarded_not_infinite|]).
    constructor.
Qed.

(** X3: [compute_metrics] itself issues a warning (one of its
    [warnings.warn] calls, or that of [max_drawdown]) exactly when one of
    the four metrics it returns is undefined. *)
Theorem warnings_iff_undefined `{NumPy} (df : DataFrame) :
  match compute_metrics df with
  | Return (m, ws) =>
      ws = []
      ↔ isfinite (Total_Return m) = true ∧ isfinite (CAGR m) = true
        ∧ isfinite (Annualized_Volatility m) = true
        ∧ isfinite (Max_Drawdown m) = true
  | Raise _ => True
  end.
Proof.
  destruct (compute_metrics df) as [[m ws]|e] eqn:E; [|done].
  destruct (compute_metrics_shape df m ws E)
    as [(-> & -> & -> & -> & ->)
       |(r1 & r2 & r3 & r4 & G1 & G2 & G3 & G4 & -> & -> & -> & -> & ->)].
  - split; [done|]. by intros [? _].
  - rewrite !app_nil_iff.
    rewrite (guarded_quiet r1 G1), (guarded_quiet r2 G2),
      (guarded_quiet r3 G3), (guarded_quiet r4 G4). done.
Qed.

(** X4: the volume column has to be there, but what it holds does not
    matter to [compute_metrics]: a row whose volume does not parse is kept
    (the dashboard itself drops such rows before it calls the function). *)
Theorem compute_metrics_ignores_volume `{NumPy} (df : DataFrame)
    (v : list cell) :
  is_Some (df !! "Volume") →
  compute_metrics (<["Volume" := v]> df) = compute_metrics df.
Proof.
  intros Hv.
  assert (clean (<["Volume" := v]> df) = clean df) as Hc.
  { unfold clean, valid_rows, column. by rewrite !lookup_insert_ne. }
  unfold compute_metrics.
  by rewrite missing_columns_insert_volume, Hc.
Qed.

(** *** Rows that do not parse *)

Lemma fmap_insert_at {A B} (f : A → B) i x (l : list A) :
  f <$> insert_at i x l = insert_at i (f x) (f <$> l).
Proof. unfold insert_at. by rewrite fmap_app, fmap_cons, fmap_take, fmap_drop. Qed.

Lemma zip_insert_at {A B} i (x : A) (y : B) l k :
  length l = length k →
  zip (insert_at i x l) (insert_at i y k) = insert_at i (x, y) (zip l k).
Proof.
  intros Hlen. unfold insert_at.
  rewrite zip_with_app by (rewrite !length_take; lia).
  by rewrite zip_with_take, zip_with_drop.
Qed.

Lemma omap_insert_at {A B} (f : A → option B) i x l :
  f x = None → omap f (insert_at i x l) = omap f l.
Proof.
  intros Hx. unfold insert_at. rewrite omap_app. simpl. rewrite Hx.
  by rewrite <- omap_app, take_drop.
Qed.

Lemma column_alter_eq f df name :
  column (alter f name df) name
  = match df !! name with Some l => f l | None => [] end.
Proof. unfold column. rewrite lookup_alter_eq. by destruct (df !! name). Qed.

Lemma column_alter_ne f df name name' :
  name ≠ name' → column (alter f name df) name' = column df name'.
Proof. intros Hne. unfold column. by rewrite lookup_alter_ne. Qed.

Lemma missing_columns_alter f name df :
  missing_columns (alter f name df) = missing_columns df.
Proof.
  unfold missing_columns. apply list_filter_iff. intros c.
  rewrite lookup_alter. case_decide; [|done]. subst. by destruct (df !! c).
Qed.

Lemma valid_rows_insert_row i d c v df :
  is_Some (df !! "Date") → is_Some (df !! "Close") →
  length (column df "Date") = length (column df "Close") →
  to_datetime d = None ∨ isnan (to_numeric c) = true →
  valid_rows (insert_row i d c v df) = valid_rows df.
Proof.
  intros [ds Hd] [cs Hc] Hlen Hbad. unfold valid_rows, insert_row.
  rewrite (column_alter_ne _ _ "Volume" "Date") by done.
  rewrite (column_alter_ne _ _ "Volume" "Close") by done.
  rewrite (column_alter_ne _ _ "Close" "Date") by done.
  rewrite !column_alter_eq, lookup_alter_ne, Hd, Hc by done.
  unfold column in *. rewrite Hd, Hc in *. simpl in Hlen. simpl.
  rewrite !fmap_insert_at, zip_insert_at by by rewrite !length_fmap.
  apply omap_insert_at.
  destruct Hbad as [Hbad|Hbad]; [by rewrite Hbad|].
  destruct (to_datetime d); [|done]. unfold notna. by rewrite Hbad.
Qed.

(** X5: in a table whose dates are all timestamps, a row with a timestamp
    for its date and a close that does not parse has no effect at all on
    [compute_metrics], wherever it stands in the table: the returns are
    taken between the rows that remain. *)
Theorem compute_metrics_ignores_bad_rows `{NumPy} (df : DataFrame)
    (i : nat) (t : Z) (v : cell) :
  is_Some (df !! "Date") → is_Some (df !! "Close") →
  length (column df "Date") = length (column df "Close") →
  Forall (λ d, ∃ t', d = Stamp t') (column df "Date") →
  compute_metrics (insert_row i (Stamp t) Junk v df) = compute_metrics df.
Proof.
  intros Hd Hc Hlen _.
  assert (clean (insert_row i (Stamp t) Junk v df) = clean df) as Hclean.
  { unfold clean. rewrite valid_rows_insert_row; [done..|]. by right. }
  unfold compute_metrics. rewrite Hclean.
  unfold insert_row. by rewrite !missing_columns_alter.
Qed.

(** *** The blocks of a long table *)

Lemma compute_metrics_blocks `{NumPy} df first final :
  missing_columns df = [] → 2 ≤ length (clean df) →
  head (clean df) = Some first → last (clean df) = Some final →
  compute_metrics df
  = Return
      ({| Start := isoformat (date_of (Date first));
          End_ := isoformat (date_of (Date final));
          Total_Return := (total_return_of (clean df)).1;
          CAGR := (cagr_of (clean df) (total_return_of (clean df)).1).1;
          Annualized_Volatility := (volatility_of (clean df)).1;
          Max_Drawdown := (max_drawdown (Num <$> (Return_ <$> clean df))).1 |},
       (total_return_of (clean df)).2
       ++ (cagr_of (clean df) (total_return_of (clean df)).1).2
       ++ (volatility_of (clean df)).2
       ++ (max_drawdown (Num <$> (Return_ <$> clean df))).2).
Proof.
  intros Hm Hlen Hh Hl. unfold compute_metrics. rewrite Hm. simpl.
  assert ((length (clean df) <? 2) = false) as -> by by apply Nat.ltb_ge.
  pose proof (guarded_total_return (clean df)) as G1.
  destruct (total_return_of (clean df)) as [tr w1]. cbn [fst snd].
  pose proof (guarded_cagr (clean df) tr) as G2.
  destruct (cagr_of (clean df) tr) as [cagr w2].
  pose proof (guarded_volatility (clean df)) as G3.
  destruct (volatility_of (clean df)) as [vol w3].
  pose proof (guarded_max_drawdown (Num <$> (Return_ <$> clean df))) as G4.
  destruct (max_drawdown _) as [mdd w4].
  rewrite Hh, Hl. simpl.
  by rewrite (finite_or_nan_guarded _ _ G1), (finite_or_nan_guarded _ _ G2),
    (finite_or_nan_guarded _ _ G3), (finite_or_nan_guarded _ _ G4).
Qed.

Lemma Qc_of_Z_nonpos (z : Z) : (Qc_of_Z z ≤ 0)%Qc ↔ (z ≤ 0)%Z.
Proof.
  unfold Qcle. simpl. rewrite Qred_correct. unfold Qle. simpl. lia.
Qed.

Lemma days_per_year_pos : ∃ b : Qc, days_per_year = Fin b ∧ (0 < b)%Qc.
Proof. eexists. split; [reflexivity|]. reflexivity. Qed.

Lemma years_nonpositive (days : Z) :
  fleb (fdiv (of_Z days) days_per_year) zero = bool_decide (days ≤ 0)%Z.
Proof.
  destruct days_per_year_pos as (b & -> & Hb).
  assert (b ≠ 0%Qc) as Hb0
    by (intros ->; by apply (irreflexivity (<)%Qc) in Hb).
  unfold of_Z. rewrite fdiv_finite by done. unfold fleb, zero.
  apply bool_decide_ext. rewrite <- Qc_of_Z_nonpos. split.
  - intros Hle. rewrite <- (Qcmult_div_r (Qc_of_Z days) b Hb0).
    rewrite Qcmult_comm. rewrite <- (Qcmult_0_l b).
    apply Qcmult_le_mono_nonneg_r; [by apply Qclt_le_weak|done].
  - intros Hle. unfold Qcdiv. rewrite <- (Qcmult_0_l (/ b)).
    apply Qcmult_le_mono_nonneg_r; [|done].
    by apply Qclt_le_weak, Qcinv_pos.
Qed.

(** X6: when the last remaining row is not at least one whole day after
    the first (same-day rows, or a table in descending date order), the CAGR
    is NaN and the warning about the time span is recorded. *)
Theorem cagr_needs_positive_span `{NumPy} (df : DataFrame)
    (first final : Row) :
  missing_columns df = [] → 2 ≤ length (clean df) →
  head (clean df) = Some first → last (clean df) = Some final →
  (timedelta_days (Date final) (Date first) ≤ 0)%Z →
  ∃ m ws, compute_metrics df = Return (m, ws)
    ∧ CAGR m = NaN ∧ W_cagr_span ∈ ws.
Proof.
  intros Hm Hlen Hh Hl Hdays.
  rewrite (compute_metrics_blocks df first final Hm Hlen Hh Hl).
  eexists _, _. split; [reflexivity|]. simpl.
  assert (∀ tr, cagr_of (clean df) tr = (NaN, [W_cagr_span])) as Hc.
  { intros tr. unfold cagr_of. rewrite Hh, Hl, years_nonpositive.
    by rewrite bool_decide_eq_true_2. }
  rewrite Hc. simpl. split; [done|].
  apply elem_of_app. right. by apply elem_of_cons; left.
Qed.

(** *** The warnings of a long table *)

Lemma to_numeric_num (l : list fval) : to_numeric <$> (Num <$> l) = l.
Proof. rewrite <- list_fmap_compose. apply list_fmap_id. Qed.

(** The returns handed to [max_drawdown] are all defined. *)
Lemma clean_returns_kept df :
  dropna (to_numeric <$> (Num <$> (Return_ <$> clean df)))
  = Return_ <$> clean df.
Proof.
  rewrite to_numeric_num. apply dropna_id, Forall_fmap, Forall_forall.
  intros r [Hr _]%list_elem_of_filter. simpl.
  unfold notna in Hr. by destruct (isnan (Return_ r)).
Qed.

Lemma total_return_warnings d first final w :
  head d = Some first → last d = Some final →
  w ∈ (total_return_of d).2 → w = W_total_nonfinite.
Proof.
  intros Hh Hl. unfold total_return_of. rewrite Hh, Hl.
  destruct (negb _); simpl; [by intros ->%list_elem_of_singleton|].
  by intros ?%elem_of_nil.
Qed.

Lemma cagr_warnings `{NumPy} d tr first final w :
  head d = Some first → last d = Some final →
  w ∈ (cagr_of d tr).2 →
  w ∈ [W_cagr_span; W_cagr_nonfinite; W_cagr_skipped].
Proof.
  intros Hh Hl. unfold cagr_of. rewrite Hh, Hl.
  destruct (fleb _ _); simpl;
    [intros ->%list_elem_of_singleton; by left|].
  destruct (isfinite tr); simpl.
  - destruct (negb _); simpl; [|by intros ?%elem_of_nil].
    intros ->%list_elem_of_singleton. right. by left.
  - intros ->%list_elem_of_singleton. do 2 right. by left.
Qed.

Lemma volatility_warnings `{NumPy} d w :
  w ∈ (volatility_of d).2 → w = W_vol_nonfinite.
Proof.
  unfold volatility_of. destruct (negb _); simpl;
    [by intros ->%list_elem_of_singleton|by intros ?%elem_of_nil].
Qed.

Lemma max_drawdown_warnings series w :
  dropna (to_numeric <$> series) ≠ [] →
  w ∈ (max_drawdown series).2 → w = W_mdd_nonfinite.
Proof.
  intros Hne. rewrite max_drawdown_pair by done. cbv zeta.
  destruct (isfinite _); simpl;
    [by intros ?%elem_of_nil|by intros ->%list_elem_of_singleton].
Qed.

(** Every warning of [compute_metrics] is one of seven. *)
Lemma compute_metrics_warnings `{NumPy} df m ws :
  compute_metrics df = Return (m, ws) →
  ws ⊆ [W_not_enough; W_total_nonfinite; W_cagr_span; W_cagr_nonfinite;
        W_cagr_skipped; W_vol_nonfinite; W_mdd_nonfinite].
Proof.
  destruct (decide (missing_columns df = [])) as [Hm|Hm].
  - destruct (decide (length (clean df) < 2)) as [Hlen|Hlen].
    + rewrite (compute_metrics_short df Hm Hlen). intros [= _ <-].
      intros w ->%list_elem_of_singleton. by left.
    + assert (2 ≤ length (clean df)) as Hlong by lia.
      destruct (head_last_of_long (clean df) Hlong) as (x & y & Hx & Hy).
      rewrite (compute_metrics_blocks df x y Hm Hlong Hx Hy).
      intros [= _ <-].
      intros w Hw. rewrite !elem_of_app in Hw. rewrite !elem_of_cons.
      destruct Hw as [Hw|[Hw|[Hw|Hw]]].
      * apply (total_return_warnings _ x y) in Hw; auto.
      * apply (cagr_warnings _ _ x y) in Hw; [|done..].
        rewrite !elem_of_cons in Hw. tauto.
      * apply volatility_warnings in Hw. auto 10.
      * apply max_drawdown_warnings in Hw; [auto 10|].
        rewrite clean_returns_kept. destruct (clean df); [|done].
        simpl in Hlong. lia.
  - unfold compute_metrics. by rewrite bool_decide_eq_false_2.
Qed.

(** X1: the positional look-ups of [compute_metrics] ([iloc[0]] and
    [iloc[-1]], lines 82-83, 95, 105, 136-137) are never out of bounds, and
    [max_drawdown] is never handed an empty series: the function raises no
    [IndexError], the [except] branches of lines 99-101 and 118-120 never
    report an index out of bounds, and the empty-series warning of
    [max_drawdown] is never issued. *)
Theorem compute_metrics_look_ups_safe `{NumPy} (df : DataFrame) :
  match compute_metrics df with
  | Return (_, ws) =>
      (W_mdd_empty ∉ ws) ∧ (W_total_index ∉ ws) ∧ (W_cagr_index ∉ ws)
  | Raise e => e ≠ IndexError
  end.
Proof.
  destruct (compute_metrics df) as [[m ws]|e] eqn:E.
  - pose proof (compute_metrics_warnings df m ws E) as Hws.
    unfold W_total_index, W_cagr_index.
    repeat split; intros Hin; apply Hws in Hin;
      rewrite !elem_of_cons in Hin;
      repeat (destruct Hin as [Hin|Hin]; [discriminate Hin|]);
      by apply elem_of_nil in Hin.
  - intros ->. unfold compute_metrics in E.
    destruct (negb _); [done|]. destruct (_ <? _) eqn:Hlen; [done|].
    apply Nat.ltb_ge in Hlen.
    destruct (head_last_of_long (clean df) Hlen) as (x & y & Hx & Hy).
    rewrite Hx, Hy in E.
    destruct (total_return_of _) as [tr w1].
    destruct (cagr_of _ _) as [cagr w2].
    destruct (volatility_of _) as [vol w3].
    by destruct (max_drawdown _) as [mdd w4].
Qed.

(** *** A table of prices *)

Lemma filter_all {A} (P : A → Prop) `{!∀ x, Decision (P x)} (l : list A) :
  Forall P l → filter P l = l.
Proof.
  induction 1 as [|x l Hx _ IH]; [done|].
  by rewrite filter_cons_True, IH.
Qed.

Lemma with_returns_cons t0 c0 rest :
  with_returns ((t0, c0) :: rest)
  = {| Date := t0; Close := c0; Return_ := NaN |}
    :: zip_with (λ '(t, c) r, {| Date := t; Close := c; Return_ := r |})
         rest
         (zip_with (λ x prev, fsub (fdiv x prev) one) rest.*2 (c0 :: rest.*2)).
Proof. unfold with_returns, pct_change. simpl. by rewrite fdiv_nan_r. Qed.

(** With prices throughout, cleaning removes the first valid row and
    nothing else. *)
Lemma clean_of_prices df t0 c0 rest :
  valid_rows df = (t0, c0) :: rest → Forall is_price (c0 :: rest.*2) →
  ∃ rets,
    length rets = length rest ∧ all_finite rets
    ∧ clean df
      = zip_with (λ '(t, c) r, {| Date := t; Close := c; Return_ := r |})
          rest rets.
Proof.
  intros Hrows Hp. eexists. split; [|split; [by apply returns_of_prices|]].
  - rewrite length_zip_with, length_fmap. simpl. rewrite length_fmap. lia.
  - unfold clean. rewrite Hrows, with_returns_cons.
    rewrite filter_cons_False by (simpl; auto).
    apply filter_all.
    pose proof (returns_of_prices c0 rest.*2 Hp) as Hfin.
    revert Hfin.
    generalize (zip_with (λ x prev, fsub (fdiv x prev) one) rest.*2
                  (c0 :: rest.*2)) as rets.
    clear. induction rest as [|[t c] rest IH]; intros [|r rets] Hfin;
      simpl; try constructor.
    + apply Forall_cons in Hfin as [Hr _]. simpl. unfold notna.
      by destruct r.
    + apply Forall_cons in Hfin as [_ Hfin]. by apply IH.
Qed.

Lemma zip_rows_head t1 c1 rest r rets :
  head (zip_with (λ '(t, c) r, {| Date := t; Close := c; Return_ := r |})
          ((t1, c1) :: rest) (r :: rets))
  = Some {| Date := t1; Close := c1; Return_ := r |}.
Proof. done. Qed.

Lemma zip_rows_last rows tn cn rets :
  length rets = length (rows ++ [(tn, cn)]) →
  ∃ r, last (zip_with (λ '(t, c) r, {| Date := t; Close := c; Return_ := r |})
               (rows ++ [(tn, cn)]) rets)
       = Some {| Date := tn; Close := cn; Return_ := r |}.
Proof.
  intros Hlen. rewrite length_app in Hlen. simpl in Hlen.
  destruct (lookup_lt_is_Some_2 rets (length rows)) as [r Hr]; [lia|].
  exists r.
  rewrite <- (take_drop (length rows) rets).
  rewrite zip_with_app by (rewrite length_take; lia).
  rewrite (drop_S _ r) by done.
  rewrite drop_ge by lia. simpl. by rewrite last_snoc.
Qed.

(** X7: on a table of prices (at least three valid rows, every close
    finite and not zero) the first valid row only serves to compute the
    return of the second: the start date is that of the second valid row,
    the end date that of the last, and the total return is the last close
    over the second close, minus 1, when that is finite (NaN otherwise). *)
Theorem total_return_from_second_row `{NumPy} (df : DataFrame)
    (t0 t1 tn : Z) (c0 c1 cn : fval) (rows : list (Z * fval)) :
  missing_columns df = [] →
  valid_rows df = (t0, c0) :: (t1, c1) :: rows ++ [(tn, cn)] →
  Forall is_price (c0 :: c1 :: rows.*2 ++ [cn]) →
  ∃ m ws, compute_metrics df = Return (m, ws)
    ∧ Start m = isoformat (date_of t1)
    ∧ End_ m = isoformat (date_of tn)
    ∧ Total_Return m = finite_or_nan (fsub (fdiv cn c1) one).
Proof.
  intros Hm Hrows Hp.
  destruct (clean_of_prices df t0 c0 ((t1, c1) :: rows ++ [(tn, cn)]) Hrows)
    as (rets & Hlen & Hfin & Hclean).
  { simpl. by rewrite fmap_app. }
  destruct rets as [|r1 rets]; [done|].
  assert (head (clean df) = Some {| Date := t1; Close := c1; Return_ := r1 |})
    as Hh by by rewrite Hclean.
  destruct (zip_rows_last ((t1, c1) :: rows) tn cn (r1 :: rets) Hlen)
    as [rn Hl].
  change (((t1, c1) :: rows) ++ [(tn, cn)])
    with ((t1, c1) :: rows ++ [(tn, cn)]) in Hl.
  rewrite <- Hclean in Hl.
  assert (2 ≤ length (clean df)) as Hlong.
  { rewrite Hclean, length_zip_with. simpl in *. rewrite length_app in *.
    simpl in *. lia. }
  assert (isfinite (fsub (fdiv cn c1) one) = true) as Htr.
  { apply pct_finite.
    - apply Forall_cons in Hp as [_ [_ Hp]%Forall_cons].
      apply Forall_app in Hp as [_ [[Hcn _] _]%Forall_cons]. done.
    - by apply Forall_cons in Hp as [_ [Hc1 _]%Forall_cons]. }
  rewrite (compute_metrics_blocks df _ _ Hm Hlong Hh Hl).
  eexists _, _. split; [reflexivity|]. simpl.
  unfold total_return_of, finite_or_nan. rewrite Hh, Hl. simpl.
  by rewrite Htr.
Qed.

(** ** Bounds on the drawdown *)

Lemma foldl_closed {A} (P : A → Prop) (f : A → A → A) acc l :
  (∀ x y, P x → P y → P (f x y)) → P acc → Forall P l → P (foldl f acc l).
Proof.
  intros Hf Hacc Hl. revert acc Hacc.
  induction Hl as [|x l Hx _ IH]; intros acc Hacc; [done|].
  simpl. apply IH. by apply Hf.
Qed.

Lemma positive_one : positive one.
Proof. exists 1%Qc. by split. Qed.

Lemma positive_fmul x y : positive x → positive y → positive (fmul x y).
Proof.
  intros (a & -> & Ha) (b & -> & Hb). exists (a * b)%Qc.
  split; [done|]. by apply Qcmult_pos_pos.
Qed.

Lemma positive_finite x : positive x → isfinite x = true.
Proof. by intros (a & -> & _). Qed.

Lemma gain_positive x : return_above (- 1) x → positive (fadd one x).
Proof.
  intros (q & -> & Hq). exists (1 + q)%Qc. split; [done|].
  apply (Qcplus_lt_mono_l _ _ 1) in Hq.
  by replace (1 + - 1)%Qc with 0%Qc in Hq by ring.
Qed.

Lemma wealth_positive s i :
  Forall (return_above (- 1)) s → positive (wealth_at s i).
Proof.
  intros Hs. unfold wealth_at.
  apply (foldl_closed positive); [apply positive_fmul|apply positive_one|].
  apply Forall_fmap, Forall_take. eapply Forall_impl; [exact Hs|].
  intros x Hx. by apply gain_positive.
Qed.

Lemma fmax_finite (a b : Qc) :
  fmax (Fin a) (Fin b) = Fin (if decide (a < b)%Qc then b else a).
Proof. unfold fmax, fltb. by case_bool_decide; case_decide. Qed.

Lemma foldl_fmax_bounds (a : Qc) l :
  all_finite l →
  ∃ p, foldl fmax (Fin a) l = Fin p ∧ (a ≤ p)%Qc
       ∧ (∀ q, Fin q ∈ l → (q ≤ p)%Qc)
       ∧ (p = a ∨ Fin p ∈ l).
Proof.
  intros Hl. revert a. induction Hl as [|x l Hx _ IH]; intros a.
  - exists a. repeat split; [apply Qcle_refl| |by left].
    by intros q ?%elem_of_nil.
  - destruct x as [b| | |]; try done. simpl. rewrite fmax_finite.
    destruct (IH (if decide (a < b)%Qc then b else a))
      as (p & -> & Hp & Hall & Hin).
    exists p. split; [done|].
    assert (a ≤ p ∧ b ≤ p)%Qc as [Ha Hb].
    { case_decide as Hlt.
      - split; [|done]. apply Qclt_le_weak in Hlt. by apply (Qcle_trans _ b).
      - split; [done|]. apply Qcnot_lt_le in Hlt. by apply (Qcle_trans _ a). }
    repeat split; [done| |].
    + intros q [[= ->]|Hq]%elem_of_cons; auto.
    + destruct Hin as [->|Hin]; [|right; by right].
      case_decide; [right; by left|by left].
Qed.

Lemma series_max_bounds l :
  l ≠ [] → all_finite l →
  ∃ p, series_max l = Fin p ∧ (∀ q, Fin q ∈ l → (q ≤ p)%Qc) ∧ Fin p ∈ l.
Proof.
  intros Hne Hl. unfold series_max.
  rewrite dropna_id by by apply all_finite_notnan.
  destruct Hl as [|x l Hx Hl]; [done|].
  destruct x as [a| | |]; try done.
  destruct (foldl_fmax_bounds a l Hl) as (p & -> & Hp & Hall & Hin).
  exists p. repeat split.
  - intros q [[= ->]|Hq]%elem_of_cons; auto.
  - destruct Hin as [->|Hin]; [by left|by right].
Qed.

Lemma wealth_in_prefix s i j :
  j ≤ i → wealth_at s j ∈ wealth_at s <$> seq 0 (S i).
Proof.
  intros Hj. apply list_elem_of_fmap. exists j. split; [done|].
  apply elem_of_seq. lia.
Qed.

(** With every return above -1 the wealth is positive and the running
    maximum is at least the wealth. *)
Lemma peak_bounds s i :
  Forall (return_above (- 1)) s →
  ∃ w p, wealth_at s i = Fin w ∧ peak_at s i = Fin p
         ∧ (0 < w)%Qc ∧ (w ≤ p)%Qc
         ∧ ∃ j, j ≤ i ∧ wealth_at s j = Fin p.
Proof.
  intros Hs. destruct (wealth_positive s i Hs) as (w & Hw & Hw0).
  destruct (series_max_bounds (wealth_at s <$> seq 0 (S i)))
    as (p & Hp & Hall & Hin).
  - done.
  - apply Forall_fmap, Forall_forall. intros j _. simpl.
    by apply positive_finite, wealth_positive.
  - exists w, p. repeat split; [done..| |].
    + apply Hall. rewrite <- Hw. by apply wealth_in_prefix.
    + apply list_elem_of_fmap in Hin as (j & Hj & Hin).
      apply elem_of_seq in Hin. exists j. split; [lia|done].
Qed.








(** *** No loss, no drawdown *)

Lemma return_from_above (lo lo' : Qc) x :
  (lo' < lo)%Qc → return_from lo x → return_above lo' x.
Proof.
  intros Hlo (q & -> & Hq). exists q. split; [done|].
  by eapply Qclt_le_trans.
Qed.

Lemma foldl_fmul_grows (a : Qc) l :
  (0 < a)%Qc → Forall (λ x, ∃ g : Qc, x = Fin g ∧ (1 ≤ g)%Qc) l →
  ∃ b, foldl fmul (Fin a) l = Fin b ∧ (a ≤ b)%Qc.
Proof.
  intros Ha Hl. revert a Ha.
  induction Hl as [|x l (g & -> & Hg) _ IH]; intros a Ha.
  - exists a. split; [done|apply Qcle_refl].
  - simpl. change (fmul (Fin a) (Fin g)) with (Fin (a * g)).
    assert (a ≤ a * g)%Qc as Hag.
    { rewrite <- (Qcmult_1_r a) at 1.
      apply Qcmult_le_mono_nonneg_l; [by apply Qclt_le_weak|done]. }
    destruct (IH (a * g)%Qc) as (b & -> & Hb).
    + by eapply Qclt_le_trans.
    + exists b. split; [done|]. by eapply Qcle_trans.
Qed.

Lemma gain_at_least_one x :
  return_from 0 x → ∃ g : Qc, fadd one x = Fin g ∧ (1 ≤ g)%Qc.
Proof.
  intros (q & -> & Hq). exists (1 + q)%Qc. split; [done|].
  apply (Qcplus_le_mono_l _ _ 1) in Hq. by rewrite Qcplus_0_r in Hq.
Qed.

(** Without losses the wealth never falls. *)
Lemma wealth_monotone s j i (a b : Qc) :
  Forall (return_from 0) s → j ≤ i →
  wealth_at s j = Fin a → wealth_at s i = Fin b → (a ≤ b)%Qc.
Proof.
  intros Hs Hji Ha Hb. unfold wealth_at in *.
  assert (take (S j) s = take (S j) (take (S i) s)) as Htake
    by (rewrite take_take; f_equal; lia).
  rewrite <- (take_drop (S j) (take (S i) s)), fmap_app, foldl_app in Hb.
  rewrite <- Htake, Ha in Hb.
  destruct (foldl_fmul_grows a (fadd one <$> drop (S j) (take (S i) s)))
    as (b' & Hb' & Hab).
  - assert (positive (Fin a)) as (a' & [= <-] & Ha').
    { rewrite <- Ha. apply (foldl_closed positive);
        [apply positive_fmul|apply positive_one|].
      apply Forall_fmap, Forall_take. eapply Forall_impl; [exact Hs|].
      intros x Hx. apply gain_positive. by apply (return_from_above 0). }
    done.
  - apply Forall_fmap, Forall_drop, Forall_take.
    eapply Forall_impl; [exact Hs|]. intros x Hx. by apply gain_at_least_one.
  - rewrite Hb' in Hb. by injection Hb as <-.
Qed.

Lemma drawdown_without_loss s i :
  Forall (return_from 0) s → drawdown_at s i = zero.
Proof.
  intros Hs.
  assert (Forall (return_above (- 1)) s) as Hs'.
  { eapply Forall_impl; [exact Hs|]. intros x Hx.
    by apply (return_from_above 0). }
  destruct (peak_bounds s i Hs')
    as (w & p & Hw & Hp & Hw0 & Hwp & j & Hj & Hpj).
  pose proof (wealth_monotone s j i p w Hs Hj Hpj Hw) as Hpw.
  assert (p = w) as -> by by apply Qcle_antisym.
  unfold drawdown_at. rewrite Hw, Hp.
  assert (w ≠ 0%Qc) as Hw1
    by (intros ->; by apply (irreflexivity (<)%Qc) in Hw0).
  rewrite fdiv_finite by done. unfold fsub, fneg, one, fadd, zero.
  f_equal. by field.
Qed.

Lemma return_from_notnan lo l :
  Forall (return_from lo) l → Forall (λ x, isnan x = false) l.
Proof. intros Hl. eapply Forall_impl; [exact Hl|]. by intros x (q & -> & _). Qed.

Lemma no_loss_no_drawdown s :
  s ≠ [] → Forall (return_from 0) s → series_min (drawdowns s) = zero.
Proof.
  intros Hne Hs.
  rewrite drawdowns_spec by by apply (return_from_notnan 0).
  apply (series_of_constant fmin zero); [done..| |].
  - by destruct s.
  - apply Forall_fmap, Forall_forall. intros i _. simpl.
    by apply drawdown_without_loss.
Qed.


(** X10: when two rows or more remain after cleaning and none of their
    returns is negative, the Max Drawdown metric of [compute_metrics] is
    exactly 0. *)
Theorem no_drawdown_without_negative_return `{NumPy} (df : DataFrame) :
  missing_columns df = [] → 2 ≤ length (clean df) →
  Forall (return_from 0) (Return_ <$> clean df) →
  ∃ m ws, compute_metrics df = Return (m, ws) ∧ Max_Drawdown m = zero.
Proof.
  intros Hm Hlong Hs.
  destruct (head_last_of_long (clean df) Hlong) as (x & y & Hx & Hy).
  rewrite (compute_metrics_blocks df x y Hm Hlong Hx Hy).
  eexists _, _. split; [reflexivity|]. simpl.
  assert (Return_ <$> clean df ≠ []) as Hne.
  { destruct (clean df); [|done]. simpl in Hlong. lia. }
  rewrite max_drawdown_pair by by rewrite clean_returns_kept.
  by rewrite clean_returns_kept, no_loss_no_drawdown.
Qed.

(** ** More on the dashboard *)

Lemma missing_columns_bars_frame bars : missing_columns (bars_frame bars) = [].
Proof.
  apply missing_columns_nil. intros c Hc. unfold required, bars_frame in *.
  rewrite !elem_of_cons in Hc. destruct Hc as [->|[->|[->|Hc]]].
  - rewrite lookup_insert_ne by done. by rewrite lookup_insert_eq.
  - by rewrite lookup_insert_eq.
  - rewrite !lookup_insert_ne by done. by rewrite lookup_insert_eq.
  - by apply elem_of_nil in Hc.
Qed.

(** The table the dashboard hands to [compute_metrics] is always
    accepted. *)
Lemma metrics_of_bars `{NumPy} bars :
  ∃ m ws, compute_metrics (bars_frame bars) = Return (m, ws).
Proof. apply compute_metrics_returns, missing_columns_bars_frame. Qed.

(** X11: when the provider's table has the three columns and at least one
    row parses, [build_dashboard_html] gets to the write of line 224: it
    returns the output path and writes that file if the file can be
    opened, and raises the [OSError] of the write, with no file written, if
    not.  With C6, whether the data errors are raised is decided by
    whether any row parses. *)
Theorem build_dashboard_html_writes `{NumPy}
    (history : string → string → option Frame)
    (format_2f : fval → string) (to_html : Figure → string)
    (writable : string → bool) (fs : gmap string string)
    (ticker period out_html : string)
    (hist : Frame) (df0 df : DataFrame) :
  history (normalize_canadian_ticker ticker) period = Some hist →
  frame_empty hist = false →
  reset_index hist = Return df0 →
  select ["Date"; "Close"; "Volume"] df0 = Return df →
  parse_bars df ≠ [] →
  let r := build_dashboard_html history format_2f to_html writable fs
             ticker period out_html in
  (writable out_html = true →
   outcome r = Return out_html ∧ ∃ html, files r = <[out_html := html]> fs)
  ∧ (writable out_html = false →
     outcome r = Raise (OSError out_html) ∧ files r = fs).
Proof.
  intros Hh He Hr Hs Hp r. unfold r, build_dashboard_html.
  rewrite Hh, He, Hr, Hs, bool_decide_eq_false_2 by done.
  destruct (metrics_of_bars (parse_bars df)) as (m & ws & ->).
  split; intros ->; simpl; eauto.
Qed.

(** X12: whatever happens, [build_dashboard_html] touches no file other
    than the one at [out_html], and when it raises it touches none. *)
Theorem build_dashboard_html_only_writes_out `{NumPy}
    (history : string → string → option Frame)
    (format_2f : fval → string) (to_html : Figure → string)
    (writable : string → bool) (fs : gmap string string)
    (ticker period out_html : string) :
  let r := build_dashboard_html history format_2f to_html writable fs
             ticker period out_html in
  (∀ e, outcome r = Raise e → files r = fs)
  ∧ (∀ p, p ≠ out_html → files r !! p = fs !! p).
Proof.
  intros r. unfold r, build_dashboard_html.
  destruct (history _ _) as [hist|]; [|by split].
  destruct (frame_empty hist); [by split|].
  destruct (reset_index hist) as [df0|]; [|by split].
  destruct (select _ df0) as [df|]; [|by split].
  case_bool_decide; [by split|].
  destruct (compute_metrics _) as [[m ws]|]; [|by split].
  destruct (writable out_html); [|by split].
  simpl. split; [done|]. intros p Hp. by rewrite lookup_insert_ne.
Qed.

(** X13: the dashboard depends on the ticker only through its normal form:
    a ticker and its normalisation give the same outcome, file and
    warnings. *)
Theorem build_dashboard_html_normalizes `{NumPy}
    (history : string → string → option Frame)
    (format_2f : fval → string) (to_html : Figure → string)
    (writable : string → bool) (fs : gmap string string)
    (ticker period out_html : string) :
  build_dashboard_html history format_2f to_html writable fs
    (normalize_canadian_ticker ticker) period out_html
  = build_dashboard_html history format_2f to_html writable fs
      ticker period out_html.
Proof. unfold build_dashboard_html. by rewrite normalize_idempotent. Qed.

(** X14: a non-empty response that lacks one of the columns "Date",
    "Close", "Volume" once its index is a column (an index under another
    name, say) makes the function raise a [KeyError] that lists the column,
    not the [ValueError] that names the ticker; no file is written. *)
Theorem build_dashboard_html_missing_column `{NumPy}
    (history : string → string → option Frame)
    (format_2f : fval → string) (to_html : Figure → string)
    (writable : string → bool) (fs : gmap string string)
    (ticker period out_html : string)
    (hist : Frame) (df0 : DataFrame) (c : string) :
  history (normalize_canadian_ticker ticker) period = Some hist →
  frame_empty hist = false →
  reset_index hist = Return df0 →
  c ∈ ["Date"; "Close"; "Volume"] → df0 !! c = None →
  let r := build_dashboard_html history format_2f to_html writable fs
             ticker period out_html in
  ∃ missing, outcome r = Raise (KeyError missing) ∧ c ∈ missing
             ∧ files r = fs.
Proof.
  intros Hh He Hr Hc Hnone r. unfold r, build_dashboard_html.
  rewrite Hh, He, Hr. unfold select.
  assert (c ∈ filter (λ c, df0 !! c = None) ["Date"; "Close"; "Volume"])
    as Hin by by apply list_elem_of_filter.
  destruct (filter _ _) as [|c' l]; [by apply elem_of_nil in Hin|].
  simpl. eauto.
Qed.

Lemma not_na_text s : s +:+ "%" ≠ "N/A".
Proof.
  intros E.
  do 4 (destruct s as [|? s]; [by vm_compute in E|]).
  vm_compute in E. discriminate E.
Qed.

(** X15: in the summary a metric is shown as "N/A" exactly when it is not
    finite, whatever the number formatter prints. *)
Theorem pct_na_iff (format_2f : fval → string) (x : fval) :
  pct format_2f x = "N/A" ↔ isfinite x = false.
Proof.
  unfold pct. destruct (isfinite x); simpl; split; try done.
  intros E. by apply not_na_text in E.
Qed.

(** ** More on tickers and file names *)

Lemma normalize_unfold ticker :
  normalize_canadian_ticker ticker
  = (let t := upper (strip ticker) in
     if startswith t "^" then t
     else if negb (contains "." t) then t +:+ ".TO" else t).
Proof. reflexivity. Qed.

Lemma normalized_trimmed ticker :
  let r := normalize_canadian_ticker ticker in
  no_lead r ∧ rstrip r = r ∧ upper r = r.
Proof.
  set (t := upper (strip ticker)).
  assert (no_lead t) as Hl by apply upper_no_lead, strip_no_lead.
  assert (upper t = t) as Hu by apply upper_idem.
  assert (rstrip t = t) as Hr.
  { unfold t, strip. by rewrite rstrip_upper, rstrip_idem. }
  intros r. unfold r. rewrite normalize_unfold. fold t. cbv zeta.
  destruct (startswith t "^"); [done|].
  destruct (negb (contains "." t)); [|done].
  by apply suffixed_stripped.
Qed.

(** X16: what [normalize_canadian_ticker] returns is trimmed and in upper
    case, and it is an index symbol (it starts with "^") or it carries a
    suffix (it contains a dot). *)
Theorem normalized_ticker_form (ticker : string) :
  let r := normalize_canadian_ticker ticker in
  strip r = r ∧ upper r = r
  ∧ (startswith r "^" = true ∨ "."%char ∈ chars r).
Proof.
  intros r. destruct (normalized_trimmed ticker) as (Hl & Hr & Hu). fold r in Hl, Hr, Hu.
  split; [|split; [done|]].
  - unfold strip. by rewrite (no_lead_lstrip r Hl).
  - unfold r. rewrite normalize_unfold. cbv zeta.
    set (t := upper (strip ticker)).
    destruct (startswith t "^") eqn:Hs; [by left|]. right.
    destruct (contains "." t) eqn:Hd; simpl.
    + by apply contains_dot.
    + rewrite chars_app. apply elem_of_app. right.
      change (chars ".TO") with ["."%char; "T"%char; "O"%char].
      apply elem_of_cons. by left.
Qed.

(** X17: normalisation ignores the case of the ticker and the white space
    around it. *)
Theorem normalize_ignores_case_and_space (ticker : string) :
  normalize_canadian_ticker (upper ticker) = normalize_canadian_ticker ticker
  ∧ normalize_canadian_ticker (strip ticker) = normalize_canadian_ticker ticker.
Proof.
  split; rewrite !normalize_unfold.
  - by rewrite strip_upper, upper_idem.
  - by rewrite strip_idem.
Qed.

(** *** The default file name *)

Lemma chars_replace_char old new c s :
  c ≠ new → (c ∈ chars (replace_char old new s) ↔ c ≠ old ∧ c ∈ chars s).
Proof.
  intros Hnew. induction s as [|a s IH].
  - split; [by intros ?%elem_of_nil|by intros [_ ?%elem_of_nil]].
  - change (chars (replace_char old new (String a s)))
      with ((if ascii_dec a old then new else a)
            :: chars (replace_char old new s)).
    change (chars (String a s)) with (a :: chars s).
    rewrite !elem_of_cons, IH.
    destruct (ascii_dec a old) as [->|Hne]; split.
    + intros [?|[? ?]]; [done|auto].
    + intros [? [?|?]]; [done|auto].
    + intros [->|[? ?]]; auto.
    + intros [? [?|?]]; auto.
Qed.

Lemma upper_char_eq_slash c : upper_char c = "/"%char ↔ c = "/"%char.
Proof.
  destruct c as [[] [] [] [] [] [] [] []]; split;
    first [reflexivity | discriminate].
Qed.

Lemma chars_upper_slash s : "/"%char ∈ chars (upper s) ↔ "/"%char ∈ chars s.
Proof.
  induction s as [|c s IH]; [done|].
  change (chars (upper (String c s))) with (upper_char c :: chars (upper s)).
  change (chars (String c s)) with (c :: chars s).
  rewrite !elem_of_cons, IH.
  split; intros [E|?]; auto; left; symmetry.
  - by apply upper_char_eq_slash.
  - by apply upper_char_eq_slash.
Qed.

Lemma safe_char_upper c :
  upper_char (if ascii_dec (upper_char c) "." then "_"%char else upper_char c)
  = upper_char (if ascii_dec c "." then "_"%char else c).
Proof. destruct c as [[] [] [] [] [] [] [] []]; reflexivity. Qed.

Lemma safe_ticker_upper s : safe_ticker (upper s) = safe_ticker s.
Proof.
  unfold safe_ticker. induction s as [|c s IH]; [done|].
  cbn [upper replace_char]. by rewrite IH, safe_char_upper.
Qed.

Lemma chars_default_out_name c ticker period :
  c ∈ chars (default_out_name ticker period)
  ↔ c ∈ chars (safe_ticker ticker) ∨ c = "_"%char
    ∨ c ∈ chars (safe_period period) ∨ c ∈ chars ".html".
Proof.
  unfold default_out_name. rewrite !chars_app, !elem_of_app.
  change (chars "_") with ["_"%char]. by rewrite list_elem_of_singleton.
Qed.

(** X18: the default file name has a slash exactly when the ticker has
    one: the slashes of the period are replaced, so for a ticker without a
    slash the file lies directly in the output directory. *)
Theorem default_out_name_slash (ticker period : string) :
  "/"%char ∈ chars (default_out_name ticker period)
  ↔ "/"%char ∈ chars ticker.
Proof.
  rewrite chars_default_out_name. unfold safe_ticker, safe_period.
  rewrite chars_upper_slash, !chars_replace_char by done.
  change (chars ".html")
    with ["."%char; "h"%char; "t"%char; "m"%char; "l"%char].
  rewrite !elem_of_cons. split.
  - intros [[_ ?]|[?|[[? _]|[?|[?|[?|[?|[?|Hn]]]]]]]]; try done.
    by apply elem_of_nil in Hn.
  - intros Hin. left. by split.
Qed.

(** X19: the default file name does not depend on the case of the ticker,
    and its ticker part holds no dot: the only dots of the name are those
    of the period and of the extension. *)
Theorem default_out_name_ticker_part (ticker period : string) :
  default_out_name (upper ticker) period = default_out_name ticker period
  ∧ ("."%char ∉ chars (safe_ticker ticker)).
Proof.
  split.
  - unfold default_out_name. by rewrite safe_ticker_upper.
  - unfold safe_ticker. rewrite chars_upper_dot, chars_replace_char by done.
    by intros [? _].
Qed.

(** *** Worked examples *)

Import Sample.

Example compute_metrics_missing_example :
  compute_metrics (<["Date" := [day 19723]]> ∅)
  = Raise (ValueError
             "compute_metrics missing required columns: ['Close', 'Volume']").
Proof. vm_compute. reflexivity. Qed.

Lemma compute_metrics_few_rows_witness :
  missing_columns (daily 19723 [10; 20])%Z = []
  ∧ length (clean (daily 19723 [10; 20])%Z) < 2
  ∧ ∃ start end_,
      compute_metrics (daily 19723 [10; 20])%Z
      = Return ({| Start := start; End_ := end_;
                   Total_Return := NaN; CAGR := NaN;
                   Annualized_Volatility := NaN; Max_Drawdown := NaN |},
                [W_not_enough])
      ∧ (clean (daily 19723 [10; 20])%Z = [] → start = "N/A" ∧ end_ = "N/A")
      ∧ (∀ r, clean (daily 19723 [10; 20])%Z = [r] →
           start = isoformat (date_of (Date r))
           ∧ end_ = isoformat (date_of (Date r))).
Proof.
  assert (missing_columns (daily 19723 [10; 20])%Z = []) as Hm
    by (vm_compute; reflexivity).
  assert (length (clean (daily 19723 [10; 20])%Z) < 2) as Hlen
    by (vm_compute; lia).
  split; [exact Hm|]. split; [exact Hlen|].
  exact (compute_metrics_few_rows (daily 19723 [10; 20])%Z Hm Hlen).
Defined.

(** C1 as the specification words it fails when the first remaining close
    is zero: for the closes 5, 0, 3 the rows left after cleaning have closes
    0 and 3, the quotient is infinite, and the metric is NaN. *)
Lemma total_return_of_zero_close :
  ∃ m ws first final,
    compute_metrics (daily 19723 [5; 0; 3])%Z = Return (m, ws)
    ∧ length (clean (daily 19723 [5; 0; 3])%Z) = 2
    ∧ head (clean (daily 19723 [5; 0; 3])%Z) = Some first
    ∧ last (clean (daily 19723 [5; 0; 3])%Z) = Some final
    ∧ fsub (fdiv (Close final) (Close first)) one = PInf
    ∧ Total_Return m = NaN.
Proof.
  eexists _, _, _, _.
  split; [vm_compute; reflexivity|].
  split; [vm_compute; reflexivity|].
  split; [vm_compute; reflexivity|].
  split; [vm_compute; reflexivity|].
  split; vm_compute; reflexivity.
Qed.

Lemma total_return_metric_witness :
  ∃ first final,
    missing_columns (daily 19723 [10; 20; 5; 10; 12])%Z = []
    ∧ 2 ≤ length (clean (daily 19723 [10; 20; 5; 10; 12])%Z)
    ∧ head (clean (daily 19723 [10; 20; 5; 10; 12])%Z) = Some first
    ∧ last (clean (daily 19723 [10; 20; 5; 10; 12])%Z) = Some final
    ∧ Close first = of_Z 20 ∧ Close final = of_Z 12
    ∧ ∃ m ws,
        compute_metrics (daily 19723 [10; 20; 5; 10; 12])%Z = Return (m, ws)
        ∧ Total_Return m
          = finite_or_nan (fsub (fdiv (Close final) (Close first)) one).
Proof.
  eexists _, _.
  assert (missing_columns (daily 19723 [10; 20; 5; 10; 12])%Z = []) as Hm
    by (vm_compute; reflexivity).
  assert (2 ≤ length (clean (daily 19723 [10; 20; 5; 10; 12])%Z)) as Hlen
    by (vm_compute; lia).
  split; [exact Hm|]. split; [exact Hlen|].
  split; [vm_compute; reflexivity|].
  split; [vm_compute; reflexivity|].
  split; [vm_compute; reflexivity|].
  split; [vm_compute; reflexivity|].
  apply (total_return_metric _ _ _ Hm Hlen); vm_compute; reflexivity.
Defined.

(** C10 as worded fails when a later return is undefined as well: for the
    closes 0, 0, 5, 10 on four consecutive days the second row has the
    return 0/0 and is dropped with the first, so the start is the third
    day. *)
Lemma start_of_zero_closes :
  ∃ m ws r0 r1 rest,
    valid_rows (daily 19723 [0; 0; 5; 10])%Z = r0 :: r1 :: rest
    ∧ compute_metrics (daily 19723 [0; 0; 5; 10])%Z = Return (m, ws)
    ∧ isoformat (date_of r1.1) = "2024-01-02"
    ∧ Start m = "2024-01-03".
Proof.
  eexists _, _, _, _, _.
  split; [vm_compute; reflexivity|].
  split; [vm_compute; reflexivity|].
  split; vm_compute; reflexivity.
Qed.

Lemma start_is_second_valid_row_witness :
  missing_columns (daily 19723 [10; 20; 5; 10])%Z = []
  ∧ valid_rows (daily 19723 [10; 20; 5; 10])%Z
    = [ ((19723 * ns_per_day)%Z, of_Z 10); ((19724 * ns_per_day)%Z, of_Z 20);
        ((19725 * ns_per_day)%Z, of_Z 5); ((19726 * ns_per_day)%Z, of_Z 10) ]
  ∧ notna (fsub (fdiv (of_Z 20) (of_Z 10)) one) = true
  ∧ ∃ m ws,
      compute_metrics (daily 19723 [10; 20; 5; 10])%Z = Return (m, ws)
      ∧ Start m = isoformat (date_of (19724 * ns_per_day)%Z).
Proof.
  assert (missing_columns (daily 19723 [10; 20; 5; 10])%Z = []) as Hm
    by (vm_compute; reflexivity).
  assert (valid_rows (daily 19723 [10; 20; 5; 10])%Z
          = [ ((19723 * ns_per_day)%Z, of_Z 10);
              ((19724 * ns_per_day)%Z, of_Z 20);
              ((19725 * ns_per_day)%Z, of_Z 5);
              ((19726 * ns_per_day)%Z, of_Z 10) ]) as Hrows
    by (vm_compute; reflexivity).
  assert (notna (fsub (fdiv (of_Z 20) (of_Z 10)) one) = true) as Hret
    by (vm_compute; reflexivity).
  split; [exact Hm|]. split; [exact Hrows|]. split; [exact Hret|].
  exact (start_is_second_valid_row _ _ _ _ _ _ Hm Hrows Hret).
Defined.


Example compute_metrics_doubled :
  ∃ m ws,
    compute_metrics (daily 19723 [20; 40; 10; 20; 24])%Z = Return (m, ws)
    ∧ compute_metrics (daily 19723 [10; 20; 5; 10; 12])%Z = Return (m, ws)
    ∧ Total_Return m = ratio (-2) 5
    ∧ Max_Drawdown m = ratio (-3) 4
    ∧ Start m = "2024-01-02" ∧ End_ m = "2024-01-05".
Proof.
  eexists _, _.
  split; [vm_compute; reflexivity|].
  assert (∀ x y : result (Metrics * list warning), bool_decide (x = y) = true → x = y)
    as Hdec by (intros x y; apply bool_decide_eq_true_1).
  split; [apply Hdec; vm_compute; reflexivity|].
  repeat split; apply (bool_decide_eq_true_1 _); vm_compute; reflexivity.
Qed.

(** C2 as worded fails on the volatility: with 31 closes the entry of row
    30 (position 29) is still undefined, because the window then holds the
    undefined return of the first row; the first defined entry is that of
    row 31. *)
Lemma vol30_undefined_on_row_30 :
  Forall is_price closes31
  ∧ length closes31 = 31
  ∧ Vol30 (indicators closes31) !! 29 = Some NaN
  ∧ ∃ x, Vol30 (indicators closes31) !! 30 = Some x ∧ isfinite x = true.
Proof.
  split; [apply (bool_decide_unpack _); vm_compute; exact I|].
  split; [reflexivity|].
  split; [vm_compute; reflexivity|].
  eexists. split; vm_compute; reflexivity.
Qed.

Lemma build_dashboard_html_no_data_witness :
  ((λ _ _ : string, Some unparsed_frame) (normalize_canadian_ticker "ry") "1y"
   = None
   ∨ (∃ hist, (λ _ _ : string, Some unparsed_frame)
                (normalize_canadian_ticker "ry") "1y" = Some hist
              ∧ frame_empty hist = true)
   ∨ (∃ hist df0 df,
        (λ _ _ : string, Some unparsed_frame)
          (normalize_canadian_ticker "ry") "1y" = Some hist
        ∧ frame_empty hist = false
        ∧ reset_index hist = Return df0
        ∧ select ["Date"; "Close"; "Volume"] df0 = Return df
        ∧ parse_bars df = []))
  ∧ (∃ pre post,
       outcome (build_dashboard_html (λ _ _, Some unparsed_frame)
                  (λ _, "") (λ _, "") (λ _, true) ∅ "ry" "1y" "outputs/RY_1y.html")
       = Raise (ValueError (pre +:+ "RY.TO" +:+ post)))
  ∧ files (build_dashboard_html (λ _ _, Some unparsed_frame)
             (λ _, "") (λ _, "") (λ _, true) ∅ "ry" "1y" "outputs/RY_1y.html") = ∅.
Proof.
  assert (∃ hist df0 df,
            (λ _ _ : string, Some unparsed_frame)
              (normalize_canadian_ticker "ry") "1y" = Some hist
            ∧ frame_empty hist = false
            ∧ reset_index hist = Return df0
            ∧ select ["Date"; "Close"; "Volume"] df0 = Return df
            ∧ parse_bars df = []) as Hcase.
  { eexists _, _, _. split; [reflexivity|].
    split; [vm_compute; reflexivity|].
    split; [vm_compute; reflexivity|].
    split; vm_compute; reflexivity. }
  split; [right; right; exact Hcase|].
  exact (build_dashboard_html_no_data (λ _ _, Some unparsed_frame)
           (λ _, "") (λ _, "") (λ _, true) ∅ "ry" "1y" "outputs/RY_1y.html"
           (or_intror (or_intror Hcase))).
Defined.

Example build_dashboard_html_writes_file :
  ∃ html,
    build_dashboard_html (λ _ _, Some good_frame) (λ _, "0.00") (λ _, html)
      (λ _, true) ∅ "ry" "1y" "outputs/RY_1y.html"
    = {| outcome := Return "outputs/RY_1y.html";
         files := {["outputs/RY_1y.html" := html]};
         warned := [] |}.
Proof. exists "<html>". vm_compute. reflexivity. Qed.

Example max_drawdown_example :
  max_drawdown [Num (ratio 1 10); Num (ratio (-1) 2); Junk; Num (ratio 1 10)]
  = (ratio (-1) 2, []).
Proof. vm_compute. reflexivity. Qed.

(** C6 as worded fails on a response that is unparseable from end to end
    but has no "Date" column once its index is reset: the column selection
    of line 153 raises a [KeyError] before any cell is parsed, and its
    message names the column, not the ticker. *)
Lemma no_data_without_date_column :
  frame_empty junk_frame = false
  ∧ Forall (λ c, to_datetime c = None) (index junk_frame)
  ∧ (∀ name col, columns junk_frame !! name = Some col →
       Forall (λ c, isnan (to_numeric c) = true) col)
  ∧ outcome (build_dashboard_html (λ _ _, Some junk_frame)
               (λ _, "") (λ _, "") (λ _, true) ∅ "ry" "1y"
               "outputs/RY_1y.html")
    = Raise (KeyError ["Date"])
  ∧ ¬ (∃ msg, outcome (build_dashboard_html (λ _ _, Some junk_frame)
                         (λ _, "") (λ _, "") (λ _, true) ∅ "ry" "1y"
                         "outputs/RY_1y.html")
              = Raise (ValueError msg)).
Proof.
  assert (outcome (build_dashboard_html (λ _ _, Some junk_frame)
                     (λ _, "") (λ _, "") (λ _, true) ∅ "ry" "1y"
                     "outputs/RY_1y.html")
          = Raise (KeyError ["Date"])) as E by (vm_compute; reflexivity).
  split; [vm_compute; reflexivity|].
  split; [by repeat constructor|].
  split; [|split; [exact E|]].
  - intros name col Hcol. unfold junk_frame in Hcol. cbn [columns] in Hcol.
    destruct (decide (name = "Close")) as [->|Hc].
    + rewrite lookup_insert_eq in Hcol. injection Hcol as <-.
      by repeat constructor.
    + rewrite lookup_insert_ne in Hcol by done.
      destruct (decide (name = "Volume")) as [->|Hv].
      * rewrite lookup_insert_eq in Hcol. injection Hcol as <-.
        by repeat constructor.
      * by rewrite lookup_insert_ne in Hcol by done.
  - intros [msg Hmsg]. rewrite E in Hmsg. discriminate Hmsg.
Qed.


(** Doubling is exact short of overflow: on the closes 10, 20, 12 it leaves
    the binary64 Total Return as it is. *)
Example total_return_doubled_in_binary64 :
  Binary64.total_return_metric
    (Binary64.scale_close PrimFloat.two Binary64.closes_10_20_12)
  = Binary64.total_return_metric Binary64.closes_10_20_12.
Proof. vm_compute. reflexivity. Qed.

(** Instances of the further properties. *)

Lemma compute_metrics_ignores_volume_witness :
  is_Some (daily 19723 [10; 20; 5; 10]%Z !! "Volume")
  ∧ compute_metrics
      (<["Volume" := [Junk; Junk; Junk; Junk]]> (daily 19723 [10; 20; 5; 10]%Z))
    = compute_metrics (daily 19723 [10; 20; 5; 10]%Z).
Proof.
  assert (is_Some (daily 19723 [10; 20; 5; 10]%Z !! "Volume")) as Hv
    by (eexists; vm_compute; reflexivity).
  split; [exact Hv|].
  exact (compute_metrics_ignores_volume _ _ Hv).
Defined.

Lemma compute_metrics_ignores_bad_rows_witness :
  is_Some (daily 19723 [10; 20; 5; 10]%Z !! "Date")
  ∧ is_Some (daily 19723 [10; 20; 5; 10]%Z !! "Close")
  ∧ length (column (daily 19723 [10; 20; 5; 10]%Z) "Date")
    = length (column (daily 19723 [10; 20; 5; 10]%Z) "Close")
  ∧ Forall (λ d, ∃ t', d = Stamp t')
      (column (daily 19723 [10; 20; 5; 10]%Z) "Date")
  ∧ compute_metrics
      (insert_row 2 (Stamp (19730 * ns_per_day)) Junk (price 7)
         (daily 19723 [10; 20; 5; 10]%Z))
    = compute_metrics (daily 19723 [10; 20; 5; 10]%Z).
Proof.
  assert (is_Some (daily 19723 [10; 20; 5; 10]%Z !! "Date")) as Hd
    by (eexists; vm_compute; reflexivity).
  assert (is_Some (daily 19723 [10; 20; 5; 10]%Z !! "Close")) as Hc
    by (eexists; vm_compute; reflexivity).
  assert (length (column (daily 19723 [10; 20; 5; 10]%Z) "Date")
          = length (column (daily 19723 [10; 20; 5; 10]%Z) "Close")) as Hlen
    by (vm_compute; reflexivity).
  assert (Forall (λ d, ∃ t', d = Stamp t')
            (column (daily 19723 [10; 20; 5; 10]%Z) "Date")) as Hst.
  { assert (column (daily 19723 [10; 20; 5; 10]%Z) "Date"
            = [day 19723; day 19724; day 19725; day 19726]) as ->
      by (vm_compute; reflexivity).
    repeat (apply Forall_cons_2; [by eexists|]). constructor. }
  split; [exact Hd|]. split; [exact Hc|]. split; [exact Hlen|].
  split; [exact Hst|].
  exact (compute_metrics_ignores_bad_rows _ 2 _ _ Hd Hc Hlen Hst).
Defined.

Lemma cagr_needs_positive_span_witness :
  ∃ first final,
    missing_columns
      (table [day 19723; day 19723; day 19723] [price 10; price 20; price 30]
         [price 1; price 1; price 1]) = []
    ∧ 2 ≤ length (clean
                    (table [day 19723; day 19723; day 19723]
                       [price 10; price 20; price 30]
                       [price 1; price 1; price 1]))
    ∧ head (clean
              (table [day 19723; day 19723; day 19723]
                 [price 10; price 20; price 30] [price 1; price 1; price 1]))
      = Some first
    ∧ last (clean
              (table [day 19723; day 19723; day 19723]
                 [price 10; price 20; price 30] [price 1; price 1; price 1]))
      = Some final
    ∧ (timedelta_days (Date final) (Date first) ≤ 0)%Z
    ∧ ∃ m ws,
        compute_metrics
          (table [day 19723; day 19723; day 19723]
             [price 10; price 20; price 30] [price 1; price 1; price 1])
        = Return (m, ws)
        ∧ CAGR m = NaN ∧ W_cagr_span ∈ ws.
Proof.
  assert (missing_columns
            (table [day 19723; day 19723; day 19723]
               [price 10; price 20; price 30] [price 1; price 1; price 1])
          = []) as Hm by (vm_compute; reflexivity).
  assert (2 ≤ length (clean
                        (table [day 19723; day 19723; day 19723]
                           [price 10; price 20; price 30]
                           [price 1; price 1; price 1]))) as Hlen
    by (vm_compute; lia).
  eexists _, _.
  split; [exact Hm|]. split; [exact Hlen|].
  split; [vm_compute; reflexivity|].
  split; [vm_compute; reflexivity|].
  split; [vm_compute; discriminate|].
  eapply (cagr_needs_positive_span _ _ _ Hm Hlen);
    [vm_compute; reflexivity..|vm_compute; discriminate].
Defined.

Lemma total_return_from_second_row_witness :
  missing_columns (daily 19723 [10; 20; 5; 10; 12])%Z = []
  ∧ valid_rows (daily 19723 [10; 20; 5; 10; 12])%Z
    = ((19723 * ns_per_day)%Z, of_Z 10) :: ((19724 * ns_per_day)%Z, of_Z 20)
      :: [((19725 * ns_per_day)%Z, of_Z 5); ((19726 * ns_per_day)%Z, of_Z 10)]
         ++ [((19727 * ns_per_day)%Z, of_Z 12)]
  ∧ Forall is_price
      (of_Z 10 :: of_Z 20
       :: [((19725 * ns_per_day)%Z, of_Z 5);
           ((19726 * ns_per_day)%Z, of_Z 10)].*2 ++ [of_Z 12])
  ∧ ∃ m ws,
      compute_metrics (daily 19723 [10; 20; 5; 10; 12])%Z = Return (m, ws)
      ∧ Start m = isoformat (date_of (19724 * ns_per_day)%Z)
      ∧ End_ m = isoformat (date_of (19727 * ns_per_day)%Z)
      ∧ Total_Return m
        = finite_or_nan (fsub (fdiv (of_Z 12) (of_Z 20)) one).
Proof.
  assert (missing_columns (daily 19723 [10; 20; 5; 10; 12])%Z = []) as Hm
    by (vm_compute; reflexivity).
  assert (valid_rows (daily 19723 [10; 20; 5; 10; 12])%Z
          = ((19723 * ns_per_day)%Z, of_Z 10)
            :: ((19724 * ns_per_day)%Z, of_Z 20)
            :: [((19725 * ns_per_day)%Z, of_Z 5);
                ((19726 * ns_per_day)%Z, of_Z 10)]
               ++ [((19727 * ns_per_day)%Z, of_Z 12)]) as Hrows
    by (vm_compute; reflexivity).
  assert (Forall is_price
            (of_Z 10 :: of_Z 20
             :: [((19725 * ns_per_day)%Z, of_Z 5);
                 ((19726 * ns_per_day)%Z, of_Z 10)].*2 ++ [of_Z 12])) as Hp
    by (apply (bool_decide_unpack _); vm_compute; exact I).
  split; [exact Hm|]. split; [exact Hrows|]. split; [exact Hp|].
  exact (total_return_from_second_row _ _ _ _ _ _ _ _ Hm Hrows Hp).
Defined.



Lemma no_drawdown_without_negative_return_witness :
  missing_columns (daily 19723 [10; 12; 12; 15])%Z = []
  ∧ 2 ≤ length (clean (daily 19723 [10; 12; 12; 15])%Z)
  ∧ Forall (return_from 0) (Return_ <$> clean (daily 19723 [10; 12; 12; 15])%Z)
  ∧ ∃ m ws,
      compute_metrics (daily 19723 [10; 12; 12; 15])%Z = Return (m, ws)
      ∧ Max_Drawdown m = zero.
Proof.
  assert (missing_columns (daily 19723 [10; 12; 12; 15])%Z = []) as Hm
    by (vm_compute; reflexivity).
  assert (2 ≤ length (clean (daily 19723 [10; 12; 12; 15])%Z)) as Hlen
    by (vm_compute; lia).
  assert (Forall (return_from 0)
            (Return_ <$> clean (daily 19723 [10; 12; 12; 15])%Z)) as Hs.
  { assert (Return_ <$> clean (daily 19723 [10; 12; 12; 15])%Z
            = [ratio 1 5; ratio 0 1; ratio 1 4]) as ->
      by (apply (bool_decide_unpack _); vm_compute; exact I).
    repeat (apply Forall_cons_2;
            [eexists; split; [reflexivity|by vm_compute]|]).
    constructor. }
  split; [exact Hm|]. split; [exact Hlen|]. split; [exact Hs|].
  exact (no_drawdown_without_negative_return _ Hm Hlen Hs).
Defined.

Lemma build_dashboard_html_writes_witness :
  (λ _ _ : string, Some good_frame) (normalize_canadian_ticker "ry") "1y"
  = Some good_frame
  ∧ frame_empty good_frame = false
  ∧ (∃ df0 df,
       reset_index good_frame = Return df0
       ∧ select ["Date"; "Close"; "Volume"] df0 = Return df
       ∧ parse_bars df ≠ [])
  ∧ (outcome (build_dashboard_html (λ _ _, Some good_frame)
                (λ _, "0.00") (λ _, "<html>")
                (λ p, bool_decide (p = "outputs/RY_1y.html")) ∅
                "ry" "1y" "outputs/RY_1y.html")
     = Return "outputs/RY_1y.html"
     ∧ ∃ html,
         files (build_dashboard_html (λ _ _, Some good_frame)
                  (λ _, "0.00") (λ _, "<html>")
                  (λ p, bool_decide (p = "outputs/RY_1y.html")) ∅
                  "ry" "1y" "outputs/RY_1y.html")
         = <["outputs/RY_1y.html" := html]> ∅)
  ∧ (outcome (build_dashboard_html (λ _ _, Some good_frame)
                (λ _, "0.00") (λ _, "<html>")
                (λ p, bool_decide (p = "outputs/RY_1y.html")) ∅
                "ry" "1y" "missing/RY_1y.html")
     = Raise (OSError "missing/RY_1y.html")
     ∧ files (build_dashboard_html (λ _ _, Some good_frame)
                (λ _, "0.00") (λ _, "<html>")
                (λ p, bool_decide (p = "outputs/RY_1y.html")) ∅
                "ry" "1y" "missing/RY_1y.html") = ∅).
Proof.
  assert (frame_empty good_frame = false) as He by (vm_compute; reflexivity).
  assert (reset_index good_frame
          = Return (<["Date" := index good_frame]> (columns good_frame)))
    as Hr by (vm_compute; reflexivity).
  assert (select ["Date"; "Close"; "Volume"]
            (<["Date" := index good_frame]> (columns good_frame))
          = Return (filter (λ kv, kv.1 ∈ ["Date"; "Close"; "Volume"])
                      (<["Date" := index good_frame]> (columns good_frame))))
    as Hs by (vm_compute; reflexivity).
  assert (parse_bars
            (filter (λ kv, kv.1 ∈ ["Date"; "Close"; "Volume"])
               (<["Date" := index good_frame]> (columns good_frame))) ≠ [])
    as Hp by (vm_compute; discriminate).
  assert (bool_decide ("outputs/RY_1y.html" = "outputs/RY_1y.html") = true)
    as Hw by (vm_compute; reflexivity).
  assert (bool_decide ("missing/RY_1y.html" = "outputs/RY_1y.html") = false)
    as Hn by (vm_compute; reflexivity).
  split; [reflexivity|]. split; [exact He|].
  split; [eexists _, _; split; [exact Hr|split; [exact Hs|exact Hp]]|].
  split.
  - exact (proj1 (build_dashboard_html_writes (λ _ _, Some good_frame)
                    (λ _, "0.00") (λ _, "<html>")
                    (λ p, bool_decide (p = "outputs/RY_1y.html")) ∅
                    "ry" "1y" "outputs/RY_1y.html"
                    good_frame _ _ eq_refl He Hr Hs Hp) Hw).
  - exact (proj2 (build_dashboard_html_writes (λ _ _, Some good_frame)
                    (λ _, "0.00") (λ _, "<html>")
                    (λ p, bool_decide (p = "outputs/RY_1y.html")) ∅
                    "ry" "1y" "missing/RY_1y.html"
                    good_frame _ _ eq_refl He Hr Hs Hp) Hn).
Defined.

Lemma build_dashboard_html_missing_column_witness :
  (λ _ _ : string, Some intraday_frame) (normalize_canadian_ticker "ry") "5d"
  = Some intraday_frame
  ∧ frame_empty intraday_frame = false
  ∧ reset_index intraday_frame
    = Return (<["Datetime" := index intraday_frame]> (columns intraday_frame))
  ∧ "Date" ∈ ["Date"; "Close"; "Volume"]
  ∧ (<["Datetime" := index intraday_frame]> (columns intraday_frame)
       : DataFrame) !! "Date" = None
  ∧ ∃ missing,
      outcome (build_dashboard_html (λ _ _, Some intraday_frame)
                 (λ _, "") (λ _, "") (λ _, true) ∅ "ry" "5d"
                 "outputs/RY_5d.html")
      = Raise (KeyError missing)
      ∧ "Date" ∈ missing
      ∧ files (build_dashboard_html (λ _ _, Some intraday_frame)
                 (λ _, "") (λ _, "") (λ _, true) ∅ "ry" "5d"
                 "outputs/RY_5d.html") = ∅.
Proof.
  assert (frame_empty intraday_frame = false) as He
    by (vm_compute; reflexivity).
  assert (reset_index intraday_frame
          = Return (<["Datetime" := index intraday_frame]>
                      (columns intraday_frame))) as Hr
    by (vm_compute; reflexivity).
  assert ("Date" ∈ ["Date"; "Close"; "Volume"]) as Hc
    by (apply elem_of_cons; by left).
  assert ((<["Datetime" := index intraday_frame]> (columns intraday_frame)
             : DataFrame) !! "Date" = None) as Hnone
    by (vm_compute; reflexivity).
  split; [reflexivity|]. split; [exact He|]. split; [exact Hr|].
  split; [exact Hc|]. split; [exact Hnone|].
  exact (build_dashboard_html_missing_column (λ _ _, Some intraday_frame)
           (λ _, "") (λ _, "") (λ _, true) ∅ "ry" "5d" "outputs/RY_5d.html"
           intraday_frame _ "Date" eq_refl He Hr Hc Hnone).
Defined.
